(** * Visual Assistant: the capture / analyze / speak loop

    A shallow embedding of [src/App.tsx] (the React component that owns the
    session) and of the Gemini service module ([analyzeScene],
    [fileToGenerativePart]), followed by the properties of the orchestration
    loop stated in the specification.

    Conventions.
    - JavaScript strings are Rocq [string]s.
    - A JavaScript computation that may throw returns a [Completion].
    - An [async] function is cut at each [await]: the part before it is one
      transition, its continuation another one, taken when the awaited
      promise settles.
    - The platform (speech synthesis queue, timers, camera, the remote
      model) is part of the state or an input of the transition. *)

From Stdlib Require Import String Ascii List Bool ZArith QArith Qround Qpower Lia Lqa.
From Stdlib Require Import Floats.SpecFloat.
Import ListNotations.

Local Open Scope string_scope.

(** ** Exceptions *)

(** What a [catch (err)] clause can receive: an [Error] instance with its
    message, or any other value ([err instanceof Error] is then false). *)
Inductive Thrown : Type :=
| ErrorObject (message : string)
| OtherValue.

Inductive Completion (A : Type) : Type :=
| Return (a : A)
| Throw (e : Thrown).

Arguments Return {A} a.
Arguments Throw {A} e.

Definition bind {A B : Type} (c : Completion A) (k : A -> Completion B) : Completion B :=
  match c with
  | Return a => k a
  | Throw e => Throw e
  end.

Definition tryCatch {A : Type} (body : Completion A) (handler : Thrown -> Completion A) : Completion A :=
  match body with
  | Return a => Return a
  | Throw e => handler e
  end.

Declare Scope completion_scope.
Delimit Scope completion_scope with completion.
Notation "x <- c ;; k" := (bind c (fun x => k))
  (at level 61, c at next level, right associativity) : completion_scope.

(** ** The Gemini service module *)

Module GeminiService.

(** The regular expression [/^data:(.+);base64,(.+)$/].  A dot matches any
    character but a line terminator, [$] is the end of the input (no [m]
    flag), and the first group is greedy: it extends to the last
    [";base64,"] that still leaves a non-empty second group. *)

Definition isLineTerminator (c : ascii) : bool :=
  (Ascii.eqb c "010" || Ascii.eqb c "013")%char.

Fixpoint allDots (s : string) : bool :=
  match s with
  | EmptyString => true
  | String c s' => negb (isLineTerminator c) && allDots s'
  end.

Definition nonEmpty (s : string) : bool :=
  match s with
  | EmptyString => false
  | String _ _ => true
  end.

Definition dropPrefix (n : nat) (s : string) : string :=
  substring n (String.length s - n) s.

Definition base64Marker : string := ";base64,".

Fixpoint greedySplit (before rest : string) : option (string * string) :=
  match rest with
  | EmptyString => None
  | String c rest' =>
      match greedySplit (before ++ String c EmptyString) rest' with
      | Some groups => Some groups
      | None =>
          if prefix base64Marker rest
             && nonEmpty before
             && nonEmpty (dropPrefix 8 rest)
          then Some (before, dropPrefix 8 rest)
          else None
      end
  end.

Definition matchDataUrl (base64Data : string) : option (string * string) :=
  if prefix "data:" base64Data && allDots (dropPrefix 5 base64Data)
  then greedySplit EmptyString (dropPrefix 5 base64Data)
  else None.

Record InlineData : Type := { mimeType : string; data : string }.

Definition fileToGenerativePart (base64Data : string) : Completion InlineData :=
  match matchDataUrl base64Data with
  | None => Throw (ErrorObject "Invalid base64 data URL format")
  | Some (m1, m2) => Return {| mimeType := m1; data := m2 |}
  end.

Definition modelName : string := "gemini-2.5-flash".

Definition prompt : string :=
"You are an AI visual assistant for a blind user. Your primary goal is to provide immediate, concise, and actionable information to help them navigate.

**Rules:**
1. **Be Extremely Brief:** Use the fewest words possible. No filler words.
2. **Focus on Hazards First:** Immediately report any obstacles, steps, curbs, or people in their path.
3. **Use Direct Language:** Use simple, clear terms.
4. **Describe Proximity:** State where objects are relative to the user (e.g., 'Curb ahead', 'Door to your left', 'Person approaching').
5. **Announce Changes:** Mention if a door opens, a light changes, or a path clears.

**Examples:**
- **Good:** 'Stop. Curb ahead.'
- **Bad:** 'I see that there is a curb coming up in front of you, so you should probably stop.'
- **Good:** 'Clear path.'
- **Bad:** 'It looks like the area in front of you is clear of any obstacles.'
- **Good:** 'Chair, front right.'
- **Bad:** 'There is a chair located in front of you and to your right.'

Analyze the image and provide a description following these rules precisely.".

Inductive Part : Type :=
| TextPart (text : string)
| ImagePart (inlineData : InlineData).

Record GenerateContentRequest : Type :=
  { model : string; contents : list Part }.

(** How the promise of [ai.models.generateContent] settles: fulfilled with
    a response whose [text] is a string or [undefined], or rejected. *)
Inductive Settlement : Type :=
| Fulfilled (text : option string)
| Rejected (reason : Thrown).

Definition await (s : Settlement) : Completion (option string) :=
  match s with
  | Fulfilled text => Return text
  | Rejected reason => Throw reason
  end.

(** [!text]: [undefined] and the empty string are falsy. *)
Definition falsy (text : option string) : bool :=
  match text with
  | None => true
  | Some s => negb (nonEmpty s)
  end.

Definition textValue (text : option string) : string :=
  match text with
  | None => EmptyString
  | Some s => s
  end.

(** The remote model is an input: [remote] tells how the request settles. *)
Definition analyzeScene (base64ImageData : string)
    (remote : GenerateContentRequest -> Settlement) : Completion string :=
  tryCatch
    (imagePart <- fileToGenerativePart base64ImageData ;;
     text <- await (remote {| model := modelName;
                              contents := [TextPart prompt; ImagePart imagePart] |}) ;;
     if falsy text then Return "No clear view." else Return (textValue text))%completion
    (fun error => Return "Error analyzing.").

(** The request [analyzeScene] issues, when it gets that far. *)
Definition requestOf (base64ImageData : string) : option GenerateContentRequest :=
  match fileToGenerativePart base64ImageData with
  | Return imagePart =>
      Some {| model := modelName; contents := [TextPart prompt; ImagePart imagePart] |}
  | Throw _ => None
  end.

End GeminiService.

(** ** Number arithmetic

    [processFrame] computes the scaled edge in IEEE 754 binary64 (the
    JavaScript Number type).  A finite double is modelled by the rational it
    denotes; division and multiplication return the exact result rounded to
    53 significant bits, ties to even.  The magnitudes [processFrame]
    reaches (quotients and products of 32-bit dimensions and 480) stay far
    from the subnormal range and from overflow, which are not modelled, and
    the divisor is never zero there. *)

Module Binary64.

Local Open Scope Q_scope.

Definition pow2 (k : Z) : Q := Qpower 2 k.

Definition roundHalfEven (y : Q) : Z :=
  let f := Qfloor y in
  match Qcompare (y - inject_Z f) (1 # 2) with
  | Lt => f
  | Gt => (f + 1)%Z
  | Eq => if Z.even f then f else (f + 1)%Z
  end.

(** For [x > 0], the exponent [k] with [2^52 <= x / 2^k < 2^53]. *)
Definition exponentOf (x : Q) : Z :=
  let k := (Z.log2 (Qnum x) - Z.log2 (Zpos (Qden x)) - 53)%Z in
  if Qle_bool (pow2 (k + 53)) x then (k + 1)%Z else k.

Definition roundPositive (x : Q) : Q :=
  let k := exponentOf x in
  inject_Z (roundHalfEven (x / pow2 k)) * pow2 k.

Definition round (x : Q) : Q :=
  match Qcompare x 0 with
  | Eq => 0
  | Gt => roundPositive x
  | Lt => - roundPositive (- x)
  end.

Definition div (a b : Q) : Q := round (a / b).
Definition mul (a b : Q) : Q := round (a * b).

(** An integer below [2^53] is a double. *)
Definition ofInt (n : Z) : Q := inject_Z n.

(** [Math.round]: the nearest integer, a tie going up. *)
Definition Math_round (x : Q) : Z := Qfloor (x + (1 # 2)).

(** The relative error of one rounding: [2^-53]. *)
Definition ulp53 : Q := 1 # 9007199254740992.

(** For cross-checking: the same product computed with the binary64
    operations of [SpecFloat] ([prec = 53], [emax = 1024]). *)
Definition specValue (f : spec_float) : Q :=
  match f with
  | S754_finite s m e => (if s then - inject_Z (Zpos m) else inject_Z (Zpos m)) * pow2 e
  | _ => 0
  end.

Definition specOfInt (n : Z) : spec_float := binary_normalize 53 1024 n 0 false.

Definition specScaled (long short : Z) : Q :=
  specValue (SFmul 53 1024 (SFdiv 53 1024 (specOfInt 480) (specOfInt long))
                   (specOfInt short)).

End Binary64.

(** ** The Frame Sampler (the resize computation of [processFrame]) *)

Module FrameSampler.

Import Binary64.

Definition MAX_DIMENSION : Z := 480.

Local Open Scope Z_scope.

(** [(targetWidth, targetHeight)] as assigned to the canvas. *)
Definition targetSize (videoWidth videoHeight : Z) : Z * Z :=
  if videoWidth >? videoHeight then
    if videoWidth >? MAX_DIMENSION then
      (MAX_DIMENSION,
       Math_round (mul (div (ofInt MAX_DIMENSION) (ofInt videoWidth)) (ofInt videoHeight)))
    else (videoWidth, videoHeight)
  else
    if videoHeight >? MAX_DIMENSION then
      (Math_round (mul (div (ofInt MAX_DIMENSION) (ofInt videoHeight)) (ofInt videoWidth)),
       MAX_DIMENSION)
    else (videoWidth, videoHeight).

Definition longEdge (size : Z * Z) : Z := Z.max (fst size) (snd size).

End FrameSampler.

(** ** The App component *)

Module App.

Import GeminiService.

Local Open Scope nat_scope.
Local Open Scope string_scope.

Definition MediaStream : Type := nat.
Definition TimerId : Type := nat.

Record SpeechSynthesisVoice : Type := { name : string; lang : string }.

(** What the callbacks created by one render ([speak], [startCamera],
    [processFrame]) close over. *)
Record Render : Type :=
  { renderActive : bool; renderVoices : list SpeechSynthesisVoice }.

(** An utterance, with the [isAssistantActive] its [onend] handler closed
    over. *)
Record Utterance : Type :=
  { utteranceText : string;
    utteranceVoice : option SpeechSynthesisVoice;
    activeAtRender : bool }.

(** A video frame as [processFrame] meets it: the intrinsic size of the
    video, whether the canvas yields a 2d context, and what [drawImage]
    followed by [toDataURL] gives. *)
Record Frame : Type :=
  { videoWidth : Z;
    videoHeight : Z;
    context2d : bool;
    encoded : Completion string }.

Inductive Effect : Type :=
| CallAnalyzeScene (base64ImageData : string)
| CallSpeak (u : Utterance)
| CallCancel
| CallGetUserMedia
| CallTrackStop (stream : MediaStream)
| CallSetInterval (id : TimerId)
| CallClearInterval (id : TimerId)
| ConsoleError.

Record AppState : Type := {
  (* React state *)
  isAssistantActive : bool;
  statusMessage : string;
  error : option string;
  voices : list SpeechSynthesisVoice;
  (* [videoRef.current] and [canvasRef.current] are non-null *)
  mounted : bool;
  (* refs *)
  mediaStreamRef : option MediaStream;
  processingIntervalRef : option TimerId;
  isProcessingRef : bool;
  isSpeakingRef : bool;
  (* [videoRef.current.srcObject] and the size of the canvas *)
  srcObject : option MediaStream;
  canvasSize : Z * Z;
  (* [window.speechSynthesis]: the utterance queue *)
  speechQueue : list Utterance;
  (* live [setInterval] registrations, each with the render whose
     [processFrame] it calls, and the next timer id *)
  intervals : list (TimerId * Render);
  nextTimerId : TimerId;
  (* [startCamera] invocations suspended at [getUserMedia] *)
  cameraRequests : list Render;
  (* [processFrame] invocations suspended at [analyzeScene], each with the
     image it sent *)
  analyses : list (string * Render);
  (* platform calls made so far, newest first *)
  effects : list Effect
}.

(** Field updates. *)

Definition setIsAssistantActive (v : bool) (s : AppState) : AppState :=
  {| isAssistantActive := v; statusMessage := statusMessage s; error := error s;
     voices := voices s; mounted := mounted s;
     mediaStreamRef := mediaStreamRef s;
     processingIntervalRef := processingIntervalRef s;
     isProcessingRef := isProcessingRef s; isSpeakingRef := isSpeakingRef s;
     srcObject := srcObject s; canvasSize := canvasSize s;
     speechQueue := speechQueue s; intervals := intervals s;
     nextTimerId := nextTimerId s; cameraRequests := cameraRequests s;
     analyses := analyses s; effects := effects s |}.

Definition setStatusMessage (v : string) (s : AppState) : AppState :=
  {| isAssistantActive := isAssistantActive s; statusMessage := v;
     error := error s; voices := voices s; mounted := mounted s;
     mediaStreamRef := mediaStreamRef s;
     processingIntervalRef := processingIntervalRef s;
     isProcessingRef := isProcessingRef s; isSpeakingRef := isSpeakingRef s;
     srcObject := srcObject s; canvasSize := canvasSize s;
     speechQueue := speechQueue s; intervals := intervals s;
     nextTimerId := nextTimerId s; cameraRequests := cameraRequests s;
     analyses := analyses s; effects := effects s |}.

Definition setError (v : option string) (s : AppState) : AppState :=
  {| isAssistantActive := isAssistantActive s; statusMessage := statusMessage s;
     error := v; voices := voices s; mounted := mounted s;
     mediaStreamRef := mediaStreamRef s;
     processingIntervalRef := processingIntervalRef s;
     isProcessingRef := isProcessingRef s; isSpeakingRef := isSpeakingRef s;
     srcObject := srcObject s; canvasSize := canvasSize s;
     speechQueue := speechQueue s; intervals := intervals s;
     nextTimerId := nextTimerId s; cameraRequests := cameraRequests s;
     analyses := analyses s; effects := effects s |}.

Definition setVoices (v : list SpeechSynthesisVoice) (s : AppState) : AppState :=
  {| isAssistantActive := isAssistantActive s; statusMessage := statusMessage s;
     error := error s; voices := v; mounted := mounted s;
     mediaStreamRef := mediaStreamRef s;
     processingIntervalRef := processingIntervalRef s;
     isProcessingRef := isProcessingRef s; isSpeakingRef := isSpeakingRef s;
     srcObject := srcObject s; canvasSize := canvasSize s;
     speechQueue := speechQueue s; intervals := intervals s;
     nextTimerId := nextTimerId s; cameraRequests := cameraRequests s;
     analyses := analyses s; effects := effects s |}.

Definition set_mounted (v : bool) (s : AppState) : AppState :=
  {| isAssistantActive := isAssistantActive s; statusMessage := statusMessage s;
     error := error s; voices := voices s; mounted := v;
     mediaStreamRef := mediaStreamRef s;
     processingIntervalRef := processingIntervalRef s;
     isProcessingRef := isProcessingRef s; isSpeakingRef := isSpeakingRef s;
     srcObject := srcObject s; canvasSize := canvasSize s;
     speechQueue := speechQueue s; intervals := intervals s;
     nextTimerId := nextTimerId s; cameraRequests := cameraRequests s;
     analyses := analyses s; effects := effects s |}.

Definition set_mediaStreamRef (v : option MediaStream) (s : AppState) : AppState :=
  {| isAssistantActive := isAssistantActive s; statusMessage := statusMessage s;
     error := error s; voices := voices s; mounted := mounted s;
     mediaStreamRef := v; processingIntervalRef := processingIntervalRef s;
     isProcessingRef := isProcessingRef s; isSpeakingRef := isSpeakingRef s;
     srcObject := srcObject s; canvasSize := canvasSize s;
     speechQueue := speechQueue s; intervals := intervals s;
     nextTimerId := nextTimerId s; cameraRequests := cameraRequests s;
     analyses := analyses s; effects := effects s |}.

Definition set_processingIntervalRef (v : option TimerId) (s : AppState) : AppState :=
  {| isAssistantActive := isAssistantActive s; statusMessage := statusMessage s;
     error := error s; voices := voices s; mounted := mounted s;
     mediaStreamRef := mediaStreamRef s; processingIntervalRef := v;
     isProcessingRef := isProcessingRef s; isSpeakingRef := isSpeakingRef s;
     srcObject := srcObject s; canvasSize := canvasSize s;
     speechQueue := speechQueue s; intervals := intervals s;
     nextTimerId := nextTimerId s; cameraRequests := cameraRequests s;
     analyses := analyses s; effects := effects s |}.

Definition set_isProcessingRef (v : bool) (s : AppState) : AppState :=
  {| isAssistantActive := isAssistantActive s; statusMessage := statusMessage s;
     error := error s; voices := voices s; mounted := mounted s;
     mediaStreamRef := mediaStreamRef s;
     processingIntervalRef := processingIntervalRef s; isProcessingRef := v;
     isSpeakingRef := isSpeakingRef s; srcObject := srcObject s;
     canvasSize := canvasSize s; speechQueue := speechQueue s;
     intervals := intervals s; nextTimerId := nextTimerId s;
     cameraRequests := cameraRequests s; analyses := analyses s;
     effects := effects s |}.

Definition set_isSpeakingRef (v : bool) (s : AppState) : AppState :=
  {| isAssistantActive := isAssistantActive s; statusMessage := statusMessage s;
     error := error s; voices := voices s; mounted := mounted s;
     mediaStreamRef := mediaStreamRef s;
     processingIntervalRef := processingIntervalRef s;
     isProcessingRef := isProcessingRef s; isSpeakingRef := v;
     srcObject := srcObject s; canvasSize := canvasSize s;
     speechQueue := speechQueue s; intervals := intervals s;
     nextTimerId := nextTimerId s; cameraRequests := cameraRequests s;
     analyses := analyses s; effects := effects s |}.

Definition set_srcObject (v : option MediaStream) (s : AppState) : AppState :=
  {| isAssistantActive := isAssistantActive s; statusMessage := statusMessage s;
     error := error s; voices := voices s; mounted := mounted s;
     mediaStreamRef := mediaStreamRef s;
     processingIntervalRef := processingIntervalRef s;
     isProcessingRef := isProcessingRef s; isSpeakingRef := isSpeakingRef s;
     srcObject := v; canvasSize := canvasSize s; speechQueue := speechQueue s;
     intervals := intervals s; nextTimerId := nextTimerId s;
     cameraRequests := cameraRequests s; analyses := analyses s;
     effects := effects s |}.

Definition set_canvasSize (v : Z * Z) (s : AppState) : AppState :=
  {| isAssistantActive := isAssistantActive s; statusMessage := statusMessage s;
     error := error s; voices := voices s; mounted := mounted s;
     mediaStreamRef := mediaStreamRef s;
     processingIntervalRef := processingIntervalRef s;
     isProcessingRef := isProcessingRef s; isSpeakingRef := isSpeakingRef s;
     srcObject := srcObject s; canvasSize := v; speechQueue := speechQueue s;
     intervals := intervals s; nextTimerId := nextTimerId s;
     cameraRequests := cameraRequests s; analyses := analyses s;
     effects := effects s |}.

Definition set_speechQueue (v : list Utterance) (s : AppState) : AppState :=
  {| isAssistantActive := isAssistantActive s; statusMessage := statusMessage s;
     error := error s; voices := voices s; mounted := mounted s;
     mediaStreamRef := mediaStreamRef s;
     processingIntervalRef := processingIntervalRef s;
     isProcessingRef := isProcessingRef s; isSpeakingRef := isSpeakingRef s;
     srcObject := srcObject s; canvasSize := canvasSize s; speechQueue := v;
     intervals := intervals s; nextTimerId := nextTimerId s;
     cameraRequests := cameraRequests s; analyses := analyses s;
     effects := effects s |}.

Definition set_intervals (v : list (TimerId * Render)) (s : AppState) : AppState :=
  {| isAssistantActive := isAssistantActive s; statusMessage := statusMessage s;
     error := error s; voices := voices s; mounted := mounted s;
     mediaStreamRef := mediaStreamRef s;
     processingIntervalRef := processingIntervalRef s;
     isProcessingRef := isProcessingRef s; isSpeakingRef := isSpeakingRef s;
     srcObject := srcObject s; canvasSize := canvasSize s;
     speechQueue := speechQueue s; intervals := v; nextTimerId := nextTimerId s;
     cameraRequests := cameraRequests s; analyses := analyses s;
     effects := effects s |}.

Definition set_nextTimerId (v : TimerId) (s : AppState) : AppState :=
  {| isAssistantActive := isAssistantActive s; statusMessage := statusMessage s;
     error := error s; voices := voices s; mounted := mounted s;
     mediaStreamRef := mediaStreamRef s;
     processingIntervalRef := processingIntervalRef s;
     isProcessingRef := isProcessingRef s; isSpeakingRef := isSpeakingRef s;
     srcObject := srcObject s; canvasSize := canvasSize s;
     speechQueue := speechQueue s; intervals := intervals s; nextTimerId := v;
     cameraRequests := cameraRequests s; analyses := analyses s;
     effects := effects s |}.

Definition set_cameraRequests (v : list Render) (s : AppState) : AppState :=
  {| isAssistantActive := isAssistantActive s; statusMessage := statusMessage s;
     error := error s; voices := voices s; mounted := mounted s;
     mediaStreamRef := mediaStreamRef s;
     processingIntervalRef := processingIntervalRef s;
     isProcessingRef := isProcessingRef s; isSpeakingRef := isSpeakingRef s;
     srcObject := srcObject s; canvasSize := canvasSize s;
     speechQueue := speechQueue s; intervals := intervals s;
     nextTimerId := nextTimerId s; cameraRequests := v; analyses := analyses s;
     effects := effects s |}.

Definition set_analyses (v : list (string * Render)) (s : AppState) : AppState :=
  {| isAssistantActive := isAssistantActive s; statusMessage := statusMessage s;
     error := error s; voices := voices s; mounted := mounted s;
     mediaStreamRef := mediaStreamRef s;
     processingIntervalRef := processingIntervalRef s;
     isProcessingRef := isProcessingRef s; isSpeakingRef := isSpeakingRef s;
     srcObject := srcObject s; canvasSize := canvasSize s;
     speechQueue := speechQueue s; intervals := intervals s;
     nextTimerId := nextTimerId s; cameraRequests := cameraRequests s;
     analyses := v; effects := effects s |}.

Definition set_effects (v : list Effect) (s : AppState) : AppState :=
  {| isAssistantActive := isAssistantActive s; statusMessage := statusMessage s;
     error := error s; voices := voices s; mounted := mounted s;
     mediaStreamRef := mediaStreamRef s;
     processingIntervalRef := processingIntervalRef s;
     isProcessingRef := isProcessingRef s; isSpeakingRef := isSpeakingRef s;
     srcObject := srcObject s; canvasSize := canvasSize s;
     speechQueue := speechQueue s; intervals := intervals s;
     nextTimerId := nextTimerId s; cameraRequests := cameraRequests s;
     analyses := analyses s; effects := v |}.

Definition initial : AppState :=
  {| isAssistantActive := false;
     statusMessage := "Tap screen to begin";
     error := None;
     voices := [];
     mounted := true;
     mediaStreamRef := None;
     processingIntervalRef := None;
     isProcessingRef := false;
     isSpeakingRef := false;
     srcObject := None;
     canvasSize := (300, 150)%Z;
     speechQueue := [];
     intervals := [];
     nextTimerId := 1;
     cameraRequests := [];
     analyses := [];
     effects := [] |}.

Definition perform (e : Effect) (s : AppState) : AppState :=
  set_effects (e :: effects s) s.

Definition currentRender (s : AppState) : Render :=
  {| renderActive := isAssistantActive s; renderVoices := voices s |}.

(** *** The platform *)

(** [window.speechSynthesis.cancel()]: the queue is emptied.  The events a
    platform may dispatch to the utterances it removes are not modelled. *)
Definition cancel (s : AppState) : AppState :=
  set_speechQueue [] (perform CallCancel s).

(** [window.speechSynthesis.speak(utterance)] *)
Definition synthSpeak (u : Utterance) (s : AppState) : AppState :=
  set_speechQueue (speechQueue s ++ [u]) (perform (CallSpeak u) s).

(** [window.setInterval(processFrame, 2500)], with the render that made
    this [processFrame].  Timer ids are positive, so a stored id is truthy
    and [if (processingIntervalRef.current)] tests for [null]. *)
Definition setInterval (r : Render) (s : AppState) : AppState * TimerId :=
  let id := nextTimerId s in
  (set_nextTimerId (S id)
     (set_intervals (intervals s ++ [(id, r)]) (perform (CallSetInterval id) s)),
   id).

Definition clearInterval (id : TimerId) (s : AppState) : AppState :=
  set_intervals (filter (fun reg => negb (Nat.eqb (fst reg) id)) (intervals s))
    (perform (CallClearInterval id) s).

(** *** speak *)

Definition preferredVoiceNames : list string :=
  [ "Google US English"; "Alex"; "Samantha"; "Daniel";
    "Microsoft David - English (United States)";
    "Microsoft Zira - English (United States)" ].

Definition selectVoice (vs : list SpeechSynthesisVoice) : option SpeechSynthesisVoice :=
  match find (fun v => existsb (String.eqb (name v)) preferredVoiceNames) vs with
  | Some v => Some v
  | None => find (fun v => prefix "en-US" (lang v)) vs
  end.

Definition speak (r : Render) (text : string) (s : AppState) : AppState :=
  let s := cancel s in
  let utterance :=
    {| utteranceText := text;
       utteranceVoice := selectVoice (renderVoices r);
       activeAtRender := renderActive r |} in
  synthSpeak utterance s.

(** The three handlers [speak] installs on the utterance. *)
Definition utterance_onstart (s : AppState) : AppState :=
  setStatusMessage "Speaking..." (set_isSpeakingRef true s).

Definition utterance_onend (u : Utterance) (s : AppState) : AppState :=
  let s := set_isSpeakingRef false s in
  if activeAtRender u then setStatusMessage "Listening..." s
  else setStatusMessage "Assistant stopped." s.

Definition utterance_onerror (s : AppState) : AppState :=
  let s := perform ConsoleError s in
  let s := set_isSpeakingRef false s in
  setError (Some "A speech error occurred.") s.

(** *** stopCamera, startCamera *)

Definition stopCamera (s : AppState) : AppState :=
  let s :=
    match mediaStreamRef s with
    | Some stream => set_mediaStreamRef None (perform (CallTrackStop stream) s)
    | None => s
    end in
  if mounted s then set_srcObject None s else s.

(** [startCamera] up to [await navigator.mediaDevices.getUserMedia(...)]. *)
Definition startCamera (r : Render) (s : AppState) : AppState :=
  match mediaStreamRef s with
  | Some _ => s
  | None =>
      let s := setStatusMessage "Starting camera..." s in
      set_cameraRequests (cameraRequests s ++ [r]) (perform CallGetUserMedia s)
  end.

(** ... its continuation when the promise is fulfilled ... *)
Definition startCamera_granted (stream : MediaStream) (s : AppState) : AppState :=
  let s := set_mediaStreamRef (Some stream) s in
  let s := if mounted s then set_srcObject (Some stream) s else s in
  setStatusMessage "Listening..." s.

(** ... and its [catch] clause. *)
Definition startCamera_catch (r : Render) (s : AppState) : AppState :=
  let s := perform ConsoleError s in
  let s := setError (Some "Could not access the camera. Please check permissions.") s in
  let s := speak r "Error: Could not access the camera." s in
  setIsAssistantActive false s.

(** *** processFrame *)

Definition processFrame_catch (r : Render) (err : Thrown) (s : AppState) : AppState :=
  let s := perform ConsoleError s in
  let errorMessage :=
    match err with
    | ErrorObject message => message
    | OtherValue => "An unknown error occurred."
    end in
  let s := setError (Some ("Failed to process frame: " ++ errorMessage)) s in
  speak r "Error: Failed to process the scene." s.

Definition processFrame_finally (s : AppState) : AppState :=
  set_isProcessingRef false s.

(** [processFrame] up to [await analyzeScene(base64ImageData)]; when it does
    not get that far it runs to its end here. *)
Definition processFrame (r : Render) (frame : Frame) (s : AppState) : AppState :=
  if isProcessingRef s || isSpeakingRef s || negb (mounted s) then s
  else
    let s := set_isProcessingRef true s in
    let s := setStatusMessage "Analyzing scene..." s in
    let s := set_canvasSize (FrameSampler.targetSize (videoWidth frame) (videoHeight frame)) s in
    if context2d frame then
      match encoded frame with
      | Return base64ImageData =>
          set_analyses (analyses s ++ [(base64ImageData, r)])
            (perform (CallAnalyzeScene base64ImageData) s)
      | Throw err => processFrame_finally (processFrame_catch r err s)
      end
    else processFrame_finally s.

(** The rest of [processFrame], run when the promise of [analyzeScene]
    settles with [description]. *)
Definition processFrame_resume (r : Render) (description : Completion string)
    (s : AppState) : AppState :=
  match description with
  | Return text => processFrame_finally (speak r text s)
  | Throw err => processFrame_finally (processFrame_catch r err s)
  end.

(** *** The effect on [isAssistantActive] *)

(** The branch taken when the assistant is not active: the stop path. *)
Definition stopAssistant (s : AppState) : AppState :=
  let s := stopCamera s in
  let s :=
    match processingIntervalRef s with
    | Some id => set_processingIntervalRef None (clearInterval id s)
    | None => s
    end in
  let s := cancel s in
  let s := set_isProcessingRef false s in
  let s := set_isSpeakingRef false s in
  setStatusMessage "Tap screen to begin" s.

Definition effectBody (r : Render) (s : AppState) : AppState :=
  if renderActive r then
    let s := startCamera r s in
    let '(s, id) := setInterval r s in
    set_processingIntervalRef (Some id) s
  else stopAssistant s.

Definition effectCleanup (s : AppState) : AppState :=
  let s := stopCamera s in
  let s :=
    match processingIntervalRef s with
    | Some id => clearInterval id s
    | None => s
    end in
  cancel s.

(** A render that changed a dependency of the effect: the previous cleanup
    runs, then the body with the values of the new render. *)
Definition commit (s : AppState) : AppState :=
  effectBody (currentRender s) (effectCleanup s).

Definition handleToggleAssistant (s : AppState) : AppState :=
  let r := currentRender s in
  let s := setError None s in
  let s := if negb (renderActive r) then speak r "Starting assistant." s else s in
  setIsAssistantActive (negb (renderActive r)) s.

(** *** Events *)

(** What can happen to the component: it is mounted (the effect runs for
    the first render); the overlay is clicked; the voice list changes (a
    new [speak], hence new [startCamera] and [processFrame], hence the
    effect runs again); a timer fires, meeting the given frame; the promise
    of the oldest pending [getUserMedia] is fulfilled or rejected; the
    remote call of the [n]-th suspended [processFrame] settles; the
    utterance at the head of the queue starts, ends or fails; the component
    is unmounted. *)
Inductive Event : Type :=
| Mount
| Click
| VoicesChanged (vs : list SpeechSynthesisVoice)
| Tick (id : TimerId) (frame : Frame)
| CameraGranted (stream : MediaStream)
| CameraDenied
| AnalysisSettled (n : nat) (remote : Settlement)
| UtteranceStart
| UtteranceEnd
| UtteranceError
| Unmount.

Fixpoint removeNth {A : Type} (n : nat) (l : list A) : list A :=
  match n, l with
  | _, [] => []
  | O, _ :: l' => l'
  | S n', x :: l' => x :: removeNth n' l'
  end.

Definition lookupInterval (id : TimerId) (s : AppState) : option Render :=
  match find (fun reg => Nat.eqb (fst reg) id) (intervals s) with
  | Some reg => Some (snd reg)
  | None => None
  end.

Definition step (e : Event) (s : AppState) : AppState :=
  match e with
  | Mount => effectBody (currentRender s) s
  | Click => commit (handleToggleAssistant s)
  | VoicesChanged vs => commit (setVoices vs s)
  | Tick id frame =>
      match lookupInterval id s with
      | Some r => processFrame r frame s
      | None => s
      end
  | CameraGranted stream =>
      match cameraRequests s with
      | _ :: rest => startCamera_granted stream (set_cameraRequests rest s)
      | [] => s
      end
  | CameraDenied =>
      match cameraRequests s with
      | r :: rest =>
          let s' := startCamera_catch r (set_cameraRequests rest s) in
          if isAssistantActive s then commit s' else s'
      | [] => s
      end
  | AnalysisSettled n remote =>
      match nth_error (analyses s) n with
      | Some (base64ImageData, r) =>
          processFrame_resume r (analyzeScene base64ImageData (fun _ => remote))
            (set_analyses (removeNth n (analyses s)) s)
      | None => s
      end
  | UtteranceStart =>
      match speechQueue s with
      | _ :: _ => utterance_onstart s
      | [] => s
      end
  | UtteranceEnd =>
      match speechQueue s with
      | u :: rest => utterance_onend u (set_speechQueue rest s)
      | [] => s
      end
  | UtteranceError =>
      match speechQueue s with
      | _ :: rest => utterance_onerror (set_speechQueue rest s)
      | [] => s
      end
  | Unmount => set_mounted false (effectCleanup s)
  end.

Fixpoint run (events : list Event) (s : AppState) : AppState :=
  match events with
  | [] => s
  | e :: rest => run rest (step e s)
  end.

(** *** Observations *)

Definition isAnalyzeCall (e : Effect) : bool :=
  match e with
  | CallAnalyzeScene _ => true
  | _ => false
  end.

(** The number of [analyzeScene] calls issued so far. *)
Definition analyzeCalls (s : AppState) : nat :=
  List.length (filter isAnalyzeCall (effects s)).

(** The texts handed to [speechSynthesis.speak], oldest first. *)
Definition spoken (s : AppState) : list string :=
  rev (flat_map (fun e => match e with CallSpeak u => [utteranceText u] | _ => [] end)
                (effects s)).

End App.

(** * Vocabulary of the statements *)

Import GeminiService App.

Local Open Scope nat_scope.
Local Open Scope string_scope.

(** A frame of a 1280x720 video that encodes to a well-formed data URL. *)
Definition sampleFrame : Frame :=
  {| videoWidth := 1280%Z;
     videoHeight := 720%Z;
     context2d := true;
     encoded := Return "data:image/jpeg;base64,/9j/4AAQ" |}.

(** Start, camera granted, one tick. *)
Definition firstTick : list Event :=
  [Mount; Click; CameraGranted 7; Tick 1 sampleFrame].

Definition networkError : Settlement := Rejected (ErrorObject "Failed to fetch").

(** One of the two flags of the guard of [processFrame] is set. *)
Definition busy (s : AppState) : bool := isProcessingRef s || isSpeakingRef s.


Definition isUtteranceEvent (e : Event) : bool :=
  match e with
  | UtteranceStart | UtteranceEnd | UtteranceError => true
  | _ => false
  end.

(** The fields the timer depends on. *)
Definition schedule (s : AppState) : bool * list (TimerId * Render) * option TimerId * bool :=
  (isAssistantActive s, intervals s, processingIntervalRef s, mounted s).

(** The session without the log of platform calls. *)
Definition sessionState (s : AppState) : AppState := set_effects [] s.

(** ** Vocabulary of the further properties *)

(** No [";"] occurs in the string (as in base64 text). *)
Fixpoint noSemicolon (s : string) : bool :=
  match s with
  | EmptyString => true
  | String c s' => negb (Ascii.eqb c ";") && noSemicolon s'
  end.

Definition transpose (size : Z * Z) : Z * Z := (snd size, fst size).

(** [preferredVoiceNames.includes(voice.name)] and
    [voice.lang.startsWith('en-US')]. *)
Definition isPreferred (v : SpeechSynthesisVoice) : bool :=
  existsb (String.eqb (name v)) preferredVoiceNames.

Definition isUSEnglish (v : SpeechSynthesisVoice) : bool :=
  prefix "en-US" (lang v).

Definition isMount (e : Event) : bool :=
  match e with
  | Mount => true
  | _ => false
  end.

(** The component is mounted once, then the events happen. *)
Definition afterMount (events : list Event) : AppState :=
  run events (step Mount initial).

(** No timer is live, or exactly one is: the one [processingIntervalRef]
    holds, registered by a render of the active assistant. *)
Definition timerOwned (s : AppState) : Prop :=
  intervals s = []
  \/ exists (id : TimerId) (r : Render),
       intervals s = [(id, r)]
       /\ processingIntervalRef s = Some id
       /\ renderActive r = true
       /\ isAssistantActive s = true.

(** No timer is live, or the only live one is the one the ref holds. *)
Definition timerHeld (s : AppState) : Prop :=
  intervals s = []
  \/ exists (id : TimerId) (r : Render),
       intervals s = [(id, r)] /\ processingIntervalRef s = Some id.

(** The six texts [setStatusMessage] is called with. *)
Definition statusMessages : list string :=
  [ "Tap screen to begin"; "Starting camera..."; "Listening...";
    "Analyzing scene..."; "Speaking..."; "Assistant stopped." ].

(** A call of [speechSynthesis.speak] carries a non-empty text. *)
Definition speaksText (e : Effect) : bool :=
  match e with
  | CallSpeak u => nonEmpty (utteranceText u)
  | _ => true
  end.

(** [err instanceof Error ? err.message : "An unknown error occurred."] *)
Definition thrownMessage (err : Thrown) : string :=
  match err with
  | ErrorObject message => message
  | OtherValue => "An unknown error occurred."
  end.

(** A session that has started and holds the camera. *)
Definition listening : AppState := run [Mount; Click; CameraGranted 7] initial.

(** A frame whose encoding throws, and one whose canvas has no 2d context. *)
Definition taintedFrame : Frame :=
  {| videoWidth := 1280%Z;
     videoHeight := 720%Z;
     context2d := true;
     encoded := Throw (ErrorObject "The operation is insecure.") |}.

Definition contextlessFrame : Frame :=
  {| videoWidth := 1280%Z;
     videoHeight := 720%Z;
     context2d := false;
     encoded := Return "data:," |}.

Arguments analyzeScene : simpl never.
Arguments FrameSampler.targetSize : simpl never.

Ltac break_match :=
  match goal with
  | |- context [match ?x with _ => _ end] => destruct x eqn:?
  end.

(** * Properties *)

(** ** The service module *)

Example matchDataUrl_jpeg :
  matchDataUrl "data:image/jpeg;base64,/9j/4AAQ" = Some ("image/jpeg", "/9j/4AAQ").
Proof. reflexivity. Qed.

(** An empty canvas encodes to ["data:,"], which the expression rejects. *)
Example matchDataUrl_empty_canvas : matchDataUrl "data:," = None.
Proof. reflexivity. Qed.

Example matchDataUrl_greedy :
  matchDataUrl "data:a;base64,b;base64,c" = Some ("a;base64,b", "c").
Proof. reflexivity. Qed.

Example matchDataUrl_backtracks :
  matchDataUrl "data:a;base64,b;base64," = Some ("a", "b;base64,").
Proof. reflexivity. Qed.

Lemma dropPrefix_0 (s : string) : dropPrefix 0 s = s.
Proof.
  unfold dropPrefix. rewrite Nat.sub_0_r.
  induction s as [|c s IH]; simpl; [reflexivity|]. now rewrite IH.
Qed.

Lemma dropPrefix_S (n : nat) (c : ascii) (s : string) :
  dropPrefix (S n) (String c s) = dropPrefix n s.
Proof. reflexivity. Qed.

Lemma prefix_split (p s : string) :
  prefix p s = true -> s = p ++ dropPrefix (String.length p) s.
Proof.
  revert s. induction p as [|c p IH]; intros s H; simpl.
  - now rewrite dropPrefix_0.
  - destruct s as [|c' s]; simpl in H; [discriminate|].
    destruct (ascii_dec c c') as [->|]; [|discriminate].
    rewrite dropPrefix_S. f_equal. now apply IH.
Qed.

Lemma append_assoc_char (a : string) (c : ascii) (r : string) :
  (a ++ String c EmptyString) ++ r = a ++ String c r.
Proof. induction a as [|x a IH]; simpl; [reflexivity|]. now rewrite IH. Qed.

Lemma greedySplit_cons (before : string) (c : ascii) (rest : string) :
  greedySplit before (String c rest)
  = match greedySplit (before ++ String c EmptyString) rest with
    | Some groups => Some groups
    | None =>
        if prefix base64Marker (String c rest)
           && nonEmpty before
           && nonEmpty (dropPrefix 8 (String c rest))
        then Some (before, dropPrefix 8 (String c rest))
        else None
    end.
Proof. reflexivity. Qed.

Lemma greedySplit_sound (rest before m1 m2 : string) :
  greedySplit before rest = Some (m1, m2) ->
  before ++ rest = m1 ++ base64Marker ++ m2 /\ nonEmpty m1 = true /\ nonEmpty m2 = true.
Proof.
  revert before. induction rest as [|c rest IH]; intros before H; [discriminate|].
  rewrite greedySplit_cons in H.
  destruct (greedySplit (before ++ String c EmptyString) rest) as [groups|] eqn:Hrec.
  - injection H as ->. apply IH in Hrec. now rewrite append_assoc_char in Hrec.
  - destruct (prefix base64Marker (String c rest)) eqn:Hp; [|discriminate].
    destruct (nonEmpty before) eqn:Hb; [|discriminate].
    destruct (nonEmpty (dropPrefix 8 (String c rest))) eqn:Hd; [|discriminate].
    injection H as <- <-. repeat split; try assumption.
    f_equal. exact (prefix_split base64Marker _ Hp).
Qed.

(** A match splits the input around the marker, both groups non-empty. *)
Lemma matchDataUrl_sound (base64Data m1 m2 : string) :
  matchDataUrl base64Data = Some (m1, m2) ->
  base64Data = "data:" ++ m1 ++ ";base64," ++ m2 /\ m1 <> "" /\ m2 <> "".
Proof.
  unfold matchDataUrl. intros H.
  destruct (prefix "data:" base64Data) eqn:Hp; simpl in H; [|discriminate].
  destruct (allDots (dropPrefix 5 base64Data)); [|discriminate].
  apply greedySplit_sound in H as (Heq & H1 & H2).
  split; [|split].
  - rewrite (prefix_split "data:" base64Data Hp) at 1. simpl String.length.
    simpl in Heq. now rewrite Heq.
  - destruct m1; simpl in H1; congruence.
  - destruct m2; simpl in H2; congruence.
Qed.

Lemma nonEmpty_true (s : string) : nonEmpty s = true -> s <> "".
Proof. destruct s; simpl; congruence. Qed.

Lemma falsy_false (text : option string) :
  falsy text = false -> text = Some (textValue text) /\ textValue text <> "".
Proof.
  destruct text as [t|]; simpl; [|discriminate].
  intros H. split; [reflexivity|].
  apply nonEmpty_true. now destruct (nonEmpty t).
Qed.

Lemma requestOf_Return (base64ImageData : string) (imagePart : InlineData) :
  fileToGenerativePart base64ImageData = Return imagePart ->
  requestOf base64ImageData
  = Some {| model := modelName; contents := [TextPart prompt; ImagePart imagePart] |}.
Proof. unfold requestOf. now intros ->. Qed.

(** What [analyzeScene] returns, case by case. *)
Lemma analyzeScene_cases (base64ImageData : string)
    (remote : GenerateContentRequest -> Settlement) :
  match requestOf base64ImageData with
  | None => analyzeScene base64ImageData remote = Return "Error analyzing."
  | Some request =>
      match remote request with
      | Rejected _ => analyzeScene base64ImageData remote = Return "Error analyzing."
      | Fulfilled text =>
          analyzeScene base64ImageData remote
          = Return (if falsy text then "No clear view." else textValue text)
      end
  end.
Proof.
  unfold analyzeScene, requestOf.
  destruct (fileToGenerativePart base64ImageData) as [imagePart|e]; simpl; [|reflexivity].
  destruct (remote _) as [text|reason]; simpl; [|reflexivity].
  now destruct (falsy text).
Qed.

Lemma spoken_perform (e : Effect) (s : AppState) :
  spoken (perform e s)
  = (spoken s ++ match e with CallSpeak u => [utteranceText u] | _ => [] end)%list.
Proof.
  unfold spoken, perform.
  destruct e; simpl; now rewrite ?app_nil_r.
Qed.

Lemma effects_speak (r : Render) (text : string) (s : AppState) :
  effects (speak r text s)
  = CallSpeak {| utteranceText := text;
                 utteranceVoice := selectVoice (renderVoices r);
                 activeAtRender := renderActive r |}
    :: CallCancel :: effects s.
Proof. reflexivity. Qed.

Lemma spoken_speak (r : Render) (text : string) (s : AppState) :
  spoken (speak r text s) = (spoken s ++ [text])%list.
Proof.
  unfold spoken. rewrite effects_speak. reflexivity.
Qed.

Lemma speechQueue_speak (r : Render) (text : string) (s : AppState) :
  map utteranceText (speechQueue (speak r text s)) = [text].
Proof. reflexivity. Qed.

(** A string that is no data URL, and the data URL of an empty canvas: no
    request is sent, the answer is the error phrase. *)
Example analyzeScene_not_a_data_url :
  forall remote : GenerateContentRequest -> Settlement,
    analyzeScene "hello" remote = Return "Error analyzing."
    /\ analyzeScene "data:," remote = Return "Error analyzing.".
Proof. intros remote. split; reflexivity. Qed.

(** [analyzeScene] returns, and what it returns is not empty. *)
Lemma analyzeScene_returns (base64ImageData : string)
    (remote : GenerateContentRequest -> Settlement) :
  exists description : string,
    analyzeScene base64ImageData remote = Return description
    /\ description <> ""
    /\ (description = "No clear view."
        \/ description = "Error analyzing."
        \/ exists request,
             requestOf base64ImageData = Some request
             /\ remote request = Fulfilled (Some description)).
Proof.
  pose proof (analyzeScene_cases base64ImageData remote) as H.
  destruct (requestOf base64ImageData) as [request|] eqn:Hreq.
  - destruct (remote request) as [text|reason] eqn:Hremote.
    + destruct (falsy text) eqn:Hfalsy.
      * exists "No clear view.". rewrite H.
        repeat split; [discriminate | now left].
      * destruct (falsy_false text Hfalsy) as [Htext Hne].
        exists (textValue text). rewrite H.
        repeat split; [exact Hne|].
        right; right. exists request. split; [reflexivity|].
        now rewrite <- Htext.
    + exists "Error analyzing.". rewrite H.
      repeat split; [discriminate | now right; left].
  - exists "Error analyzing.". rewrite H.
    repeat split; [discriminate | now right; left].
Qed.

(** C9. [analyzeScene] never rejects: for every input string and every way
    the remote call settles it resolves to a non-empty string, which is the
    text of the model, ["No clear view."] or ["Error analyzing."]; the
    continuation of [processFrame] therefore always takes the branch that
    speaks the description, never its [catch] clause. *)
Theorem analyzeScene_total :
  forall (base64ImageData : string) (remote : GenerateContentRequest -> Settlement),
  exists description : string,
    analyzeScene base64ImageData remote = Return description
    /\ description <> ""
    /\ (description = "No clear view."
        \/ description = "Error analyzing."
        \/ exists request,
             requestOf base64ImageData = Some request
             /\ remote request = Fulfilled (Some description))
    /\ forall (r : Render) (s : AppState),
         processFrame_resume r (analyzeScene base64ImageData remote) s
         = processFrame_finally (speak r description s).
Proof.
  intros base64ImageData remote.
  destruct (analyzeScene_returns base64ImageData remote) as (d & Hd & Hne & Hcases).
  exists d. repeat split; try assumption.
  intros r s. now rewrite Hd.
Qed.

(** C5. When the remote call is fulfilled with an empty or missing text,
    [analyzeScene] resolves to ["No clear view."], and that string (not the
    empty one) is what [processFrame] hands to [speak]. *)
Theorem analyzeScene_empty_text_fallback :
  forall (base64ImageData : string) (remote : GenerateContentRequest -> Settlement)
         (request : GenerateContentRequest) (text : option string),
    requestOf base64ImageData = Some request ->
    remote request = Fulfilled text ->
    (text = None \/ text = Some "") ->
    analyzeScene base64ImageData remote = Return "No clear view."
    /\ forall (r : Render) (s : AppState),
         let s' := processFrame_resume r (analyzeScene base64ImageData remote) s in
         spoken s' = (spoken s ++ ["No clear view."])%list
         /\ map utteranceText (speechQueue s') = ["No clear view."].
Proof.
  intros base64ImageData remote request text Hreq Hremote Htext.
  pose proof (analyzeScene_cases base64ImageData remote) as H.
  rewrite Hreq, Hremote in H.
  assert (Hfalsy : falsy text = true) by (destruct Htext; subst; reflexivity).
  rewrite Hfalsy in H. rewrite H. split; [reflexivity|].
  intros r s. simpl. split.
  - reflexivity.
  - reflexivity.
Qed.

Lemma analyzeScene_empty_text_fallback_witness :
  analyzeScene "data:image/jpeg;base64,/9j/4AAQ" (fun _ => Fulfilled (Some ""))
  = Return "No clear view.".
Proof.
  refine (proj1 (analyzeScene_empty_text_fallback
                   "data:image/jpeg;base64,/9j/4AAQ" (fun _ => Fulfilled (Some ""))
                   {| model := modelName;
                      contents := [TextPart prompt;
                                   ImagePart {| mimeType := "image/jpeg";
                                                data := "/9j/4AAQ" |}] |}
                   (Some "") _ _ _)).
  - reflexivity.
  - reflexivity.
  - right; reflexivity.
Defined.

(** ** C2: the Frame Sampler *)

Section FrameSamplerProofs.

Import Binary64.
Local Open Scope Q_scope.

Lemma pow2_pos (k : Z) : 0 < pow2 k.
Proof. unfold pow2. now apply Qpower_0_lt. Qed.

Lemma pow2_plus (a b : Z) : pow2 (a + b) == pow2 a * pow2 b.
Proof. unfold pow2. now apply Qpower_plus. Qed.

Lemma pow2_inject (a : Z) : (0 <= a)%Z -> pow2 a == inject_Z (2 ^ a).
Proof. intros H. unfold pow2. symmetry. exact (Zpower_Qpower 2 a H). Qed.

Lemma roundHalfEven_error (y : Q) :
  y - (1 # 2) <= inject_Z (roundHalfEven y) <= y + (1 # 2).
Proof.
  unfold roundHalfEven.
  pose proof (Qfloor_le y) as Hle.
  pose proof (Qlt_floor y) as Hlt.
  rewrite inject_Z_plus in Hlt. change (inject_Z 1) with 1 in Hlt.
  destruct (Qcompare_spec (y - inject_Z (Qfloor y)) (1 # 2)) as [He|Hl|Hg].
  - destruct (Z.even (Qfloor y)).
    + split; lra.
    + rewrite inject_Z_plus. change (inject_Z 1) with 1. split; lra.
  - split; lra.
  - rewrite inject_Z_plus. change (inject_Z 1) with 1. split; lra.
Qed.

(** The exponent chosen for [x] puts the mantissa [x / 2^k] at or above
    [2^52] ... *)
Lemma exponentOf_le (x : Q) : 0 < x -> pow2 (exponentOf x + 52) <= x.
Proof.
  intros Hx. unfold exponentOf.
  set (k := (Z.log2 (Qnum x) - Z.log2 (Z.pos (Qden x)) - 53)%Z).
  destruct (Qle_bool (pow2 (k + 53)) x) eqn:Hb.
  - apply Qle_bool_iff in Hb. now replace (k + 1 + 52)%Z with (k + 53)%Z by lia.
  - clear Hb.
    assert (Hn : (0 < Qnum x)%Z).
    { destruct x as [n d]. unfold Qlt in Hx. simpl in *. lia. }
    pose proof (Z.log2_spec (Qnum x) Hn) as [Ha _].
    pose proof (Z.log2_spec (Z.pos (Qden x)) (Pos2Z.is_pos _)) as [_ Hb].
    pose proof (Z.log2_nonneg (Qnum x)) as Ha0.
    pose proof (Z.log2_nonneg (Z.pos (Qden x))) as Hb0.
    set (a := Z.log2 (Qnum x)) in *. set (b := Z.log2 (Z.pos (Qden x))) in *.
    replace (k + 52)%Z with (a + - (b + 1))%Z by (unfold k; lia).
    rewrite pow2_plus. unfold pow2 at 2. rewrite Qpower_opp. fold (pow2 (b + 1)).
    rewrite (pow2_inject a Ha0), (pow2_inject (b + 1)) by lia.
    assert (Hd : 0 < inject_Z (2 ^ (b + 1))).
    { change 0 with (inject_Z 0). rewrite <- Zlt_Qlt. lia. }
    apply Qle_shift_div_r; [exact Hd|].
    destruct x as [n d]. simpl in *.
    unfold Qle, Qmult, inject_Z. simpl. nia.
Qed.

(** ... and the mantissa stays below [2^53]: 53 significant bits. *)
Lemma exponentOf_lt (x : Q) : 0 < x -> x < pow2 (exponentOf x + 53).
Proof.
  intros Hx. unfold exponentOf.
  set (k := (Z.log2 (Qnum x) - Z.log2 (Z.pos (Qden x)) - 53)%Z).
  destruct (Qle_bool (pow2 (k + 53)) x) eqn:Hb.
  - clear Hb.
    assert (Hn : (0 < Qnum x)%Z).
    { destruct x as [n d]. unfold Qlt in Hx. simpl in *. lia. }
    pose proof (Z.log2_spec (Qnum x) Hn) as [_ Ha].
    pose proof (Z.log2_spec (Z.pos (Qden x)) (Pos2Z.is_pos _)) as [Hb _].
    pose proof (Z.log2_nonneg (Qnum x)) as Ha0.
    pose proof (Z.log2_nonneg (Z.pos (Qden x))) as Hb0.
    set (a := Z.log2 (Qnum x)) in *. set (b := Z.log2 (Z.pos (Qden x))) in *.
    replace (k + 1 + 53)%Z with ((a + 1) + - b)%Z by (unfold k; lia).
    rewrite pow2_plus. unfold pow2 at 2. rewrite Qpower_opp. fold (pow2 b).
    rewrite (pow2_inject (a + 1)), (pow2_inject b) by lia.
    assert (Hd : 0 < inject_Z (2 ^ b)).
    { change 0 with (inject_Z 0). rewrite <- Zlt_Qlt. lia. }
    apply Qlt_shift_div_l; [exact Hd|].
    destruct x as [n d]. simpl in *.
    unfold Qlt, Qmult, inject_Z. simpl. nia.
  - apply Qnot_le_lt. intros H. apply Qle_bool_iff in H. congruence.
Qed.

Lemma roundPositive_error (x : Q) :
  0 < x -> x * (1 - ulp53) <= roundPositive x <= x * (1 + ulp53).
Proof.
  intros Hx. unfold roundPositive.
  pose proof (exponentOf_le x Hx) as Hk.
  set (k := exponentOf x) in *.
  rewrite pow2_plus in Hk.
  pose proof (pow2_pos k) as Hp.
  set (P := pow2 k) in *.
  pose proof (roundHalfEven_error (x / P)) as [Hlo Hhi].
  set (q := inject_Z (roundHalfEven (x / P))) in *.
  assert (Hy : (x / P) * P == x) by (field; lra).
  set (y := x / P) in *.
  change (pow2 52) with (4503599627370496 # 1) in Hk.
  unfold ulp53.
  split; nra.
Qed.

Lemma round_error (x : Q) :
  0 <= x -> x * (1 - ulp53) <= round x <= x * (1 + ulp53).
Proof.
  intros Hx. unfold round.
  destruct (Qcompare_spec x 0) as [He|Hl|Hg].
  - unfold ulp53. split; lra.
  - lra.
  - now apply roundPositive_error.
Qed.

Lemma Math_round_error (p : Q) :
  inject_Z (Math_round p) <= p + (1 # 2) < inject_Z (Math_round p) + 1.
Proof.
  unfold Math_round. split.
  - apply Qfloor_le.
  - pose proof (Qlt_floor (p + (1 # 2))) as H.
    rewrite inject_Z_plus in H. exact H.
Qed.

(** The product [(480 / long) * short] as computed, against the exact
    value [480 * short / long]. *)
Lemma scaled_product_error (long short : Z) :
  (480 < long)%Z -> (0 <= short <= long)%Z ->
  let p := mul (div (ofInt 480) (ofInt long)) (ofInt short) in
  exists X : Q,
    X * inject_Z long == 480 * inject_Z short
    /\ 0 <= X <= 480
    /\ X - (1 # 4000000000000) <= p <= X + (1 # 4000000000000).
Proof.
  intros Hlong Hshort p.
  assert (HL : 480 < inject_Z long) by (change 480 with (inject_Z 480); now rewrite <- Zlt_Qlt).
  assert (HS0 : 0 <= inject_Z short) by (change 0 with (inject_Z 0); now rewrite <- Zle_Qle).
  assert (HSL : inject_Z short <= inject_Z long) by (now rewrite <- Zle_Qle).
  unfold p, mul, div, ofInt. change (inject_Z 480) with 480.
  set (L := inject_Z long) in *. set (S := inject_Z short) in *.
  assert (HA : (480 / L) * L == 480) by (field; lra).
  assert (HA0 : 0 < 480 / L) by (apply Qlt_shift_div_l; lra).
  set (A := 480 / L) in *.
  pose proof (round_error A (Qlt_le_weak _ _ HA0)) as [Hq1 Hq2].
  set (q1 := round A) in *.
  unfold ulp53 in *.
  assert (HB0 : 0 <= q1 * S) by nra.
  pose proof (round_error (q1 * S) HB0) as [Hp1 Hp2].
  set (pp := round (q1 * S)) in *.
  unfold ulp53 in *.
  exists (A * S).
  assert (HX : A * S * L == 480 * S) by nra.
  assert (HX0 : 0 <= A * S) by nra.
  assert (HX1 : A * S <= 480) by nra.
  set (X := A * S) in *.
  assert (Hup : q1 * S <= X * (1 + (1 # 9007199254740992))) by (unfold X; nra).
  assert (Hlo : X * (1 - (1 # 9007199254740992)) <= q1 * S) by (unfold X; nra).
  set (B := q1 * S) in *.
  repeat split; try assumption; nra.
Qed.

Lemma scaled_edge (long short : Z) :
  (480 < long < 2 ^ 32)%Z -> (0 <= short <= long)%Z ->
  let e := Math_round (mul (div (ofInt 480) (ofInt long)) (ofInt short)) in
  (0 <= e <= 480)%Z /\ (Z.abs (2 * long * e - 960 * short) <= long)%Z.
Proof.
  intros [Hlong Hmax] Hshort e.
  destruct (scaled_product_error long short Hlong Hshort) as (X & HX & [HX0 HX1] & [Hp1 Hp2]).
  pose proof (Math_round_error (mul (div (ofInt 480) (ofInt long)) (ofInt short))) as [He1 He2].
  fold e in He1, He2.
  set (p := mul (div (ofInt 480) (ofInt long)) (ofInt short)) in *.
  assert (HL : 480 < inject_Z long) by (change 480 with (inject_Z 480); now rewrite <- Zlt_Qlt).
  assert (HLmax : inject_Z long < 4294967296)
    by (change 4294967296 with (inject_Z (2 ^ 32)); now rewrite <- Zlt_Qlt).
  assert (HS0 : 0 <= inject_Z short) by (change 0 with (inject_Z 0); now rewrite <- Zle_Qle).
  assert (Hlo : (-1 < e)%Z).
  { rewrite Zlt_Qlt. change (inject_Z (-1)) with (-1). lra. }
  assert (Hhi : (e < 481)%Z).
  { rewrite Zlt_Qlt. change (inject_Z 481) with 481. lra. }
  assert (Hup : (2 * long * e < 960 * short + long + 1)%Z).
  { rewrite Zlt_Qlt. rewrite !inject_Z_plus, !inject_Z_mult.
    change (inject_Z 2) with 2. change (inject_Z 960) with 960. change (inject_Z 1) with 1.
    set (L := inject_Z long) in *. set (S := inject_Z short) in *. set (E := inject_Z e) in *.
    nra. }
  assert (Hdown : (960 * short - long - 1 < 2 * long * e)%Z).
  { rewrite Zlt_Qlt. unfold Z.sub. rewrite !inject_Z_plus, !inject_Z_mult, !inject_Z_opp.
    change (inject_Z 2) with 2. change (inject_Z 960) with 960. change (inject_Z 1) with 1.
    set (L := inject_Z long) in *. set (S := inject_Z short) in *. set (E := inject_Z e) in *.
    nra. }
  split; lia.
Qed.

End FrameSamplerProofs.

Local Open Scope Z_scope.

Example targetSize_full_hd : FrameSampler.targetSize 1920 1080 = (480, 270).
Proof. vm_compute. reflexivity. Qed.

Example targetSize_portrait : FrameSampler.targetSize 1080 1920 = (270, 480).
Proof. vm_compute. reflexivity. Qed.

Example targetSize_vga : FrameSampler.targetSize 640 480 = (480, 360).
Proof. vm_compute. reflexivity. Qed.

Example targetSize_small : FrameSampler.targetSize 320 240 = (320, 240).
Proof. vm_compute. reflexivity. Qed.

(** [480 * 11 / 704] is exactly 7.5, but the quotient [480 / 704] is
    rounded down, the product comes out just below 7.5, and [Math.round]
    gives 7. *)
Example targetSize_tie : FrameSampler.targetSize 704 11 = (480, 7).
Proof. vm_compute. reflexivity. Qed.

(** The arithmetic of [Binary64] and the binary64 operations of the
    standard library's [SpecFloat] give the same product on these sizes. *)
Example binary64_agrees_with_SpecFloat :
  forallb (fun size => Qeq_bool (Binary64.specScaled (fst size) (snd size))
                                (Binary64.mul (Binary64.div 480 (inject_Z (fst size)))
                                              (inject_Z (snd size))))
          [(704, 11); (1920, 1080); (1280, 720); (640, 480); (3840, 2160);
           (4096, 2160); (2880, 3); (832, 13); (481, 480); (4294967295, 4294967294);
           (1000, 999); (720, 480); (2592, 1944); (1440, 1080); (960, 1)]
  = true.
Proof. vm_compute. reflexivity. Qed.

(** C2. For every frame size (widths and heights are 32-bit unsigned), the
    long edge of the target size is at most 480; the aspect ratio is kept
    within rounding: [targetWidth * h] and [targetHeight * w] differ by at
    most half the long edge of the frame, that is, the scaled short edge is
    within 1/2 of the exact proportional value; and a frame whose long edge
    does not exceed 480 keeps its size. *)
Theorem targetSize_bounded :
  forall w h : Z,
    0 <= w < 2 ^ 32 -> 0 <= h < 2 ^ 32 ->
    FrameSampler.longEdge (FrameSampler.targetSize w h) <= FrameSampler.MAX_DIMENSION
    /\ 0 <= fst (FrameSampler.targetSize w h)
    /\ 0 <= snd (FrameSampler.targetSize w h)
    /\ 2 * Z.abs (fst (FrameSampler.targetSize w h) * h
                  - snd (FrameSampler.targetSize w h) * w)
       <= FrameSampler.longEdge (w, h)
    /\ (FrameSampler.longEdge (w, h) <= FrameSampler.MAX_DIMENSION ->
        FrameSampler.targetSize w h = (w, h))
    /\ (FrameSampler.MAX_DIMENSION < FrameSampler.longEdge (w, h) ->
        FrameSampler.longEdge (FrameSampler.targetSize w h) = FrameSampler.MAX_DIMENSION).
Proof.
  intros w h Hw Hh.
  unfold FrameSampler.targetSize, FrameSampler.longEdge, FrameSampler.MAX_DIMENSION,
    Binary64.ofInt.
  destruct (Z.gtb_spec w h) as [Hwh|Hwh].
  - destruct (Z.gtb_spec w 480) as [Hbig|Hsmall]; simpl fst; simpl snd.
    + destruct (scaled_edge w h) as [He Hr]; [lia | lia |].
      unfold Binary64.ofInt in He, Hr.
      set (e := Binary64.Math_round _) in *.
      repeat split; try lia.
    + repeat split; try lia.
  - destruct (Z.gtb_spec h 480) as [Hbig|Hsmall]; simpl fst; simpl snd.
    + destruct (scaled_edge h w) as [He Hr]; [lia | lia |].
      unfold Binary64.ofInt in He, Hr.
      set (e := Binary64.Math_round _) in *.
      repeat split; try lia.
    + repeat split; try lia.
Qed.

Lemma targetSize_bounded_witness :
  FrameSampler.longEdge (FrameSampler.targetSize 704 11) <= FrameSampler.MAX_DIMENSION
  /\ 2 * Z.abs (fst (FrameSampler.targetSize 704 11) * 11
                - snd (FrameSampler.targetSize 704 11) * 704)
     <= FrameSampler.longEdge (704, 11).
Proof.
  destruct (targetSize_bounded 704 11) as (Hlong & _ & _ & Hratio & _).
  - lia.
  - lia.
  - split; [exact Hlong | exact Hratio].
Defined.

Local Close Scope Z_scope.

(** ** The App component: scenarios *)

(** The scenario of the specification: the analyzer answers
    ["Stop. Curb ahead."], exactly that is spoken, the status goes to
    ["Speaking..."] and back to ["Listening..."]. *)
Example scenario_curb_ahead :
  let s1 := run (firstTick ++ [AnalysisSettled 0 (Fulfilled (Some "Stop. Curb ahead."))]) initial in
  let s2 := step UtteranceStart s1 in
  let s3 := step UtteranceEnd s2 in
  map utteranceText (speechQueue s1) = ["Stop. Curb ahead."]
  /\ statusMessage s2 = "Speaking..."
  /\ statusMessage s3 = "Listening..."
  /\ analyzeCalls s3 = 1.
Proof. vm_compute. repeat split. Qed.

(** Start then stop before the first tick: no analysis call. *)
Example scenario_double_toggle :
  let s := run [Mount; Click; Click] initial in
  analyzeCalls s = 0 /\ intervals s = [] /\ isAssistantActive s = false.
Proof. vm_compute. repeat split. Qed.

(** ** The App component: lemmas on the transitions *)


Lemma analyzeCalls_perform (e : Effect) (s : AppState) :
  isAnalyzeCall e = false -> analyzeCalls (perform e s) = analyzeCalls s.
Proof. unfold analyzeCalls, perform. simpl. now intros ->. Qed.





(** A tick on a live timer that finds both flags clear, the component
    mounted and a frame it can encode, calls [analyzeScene]. *)
Lemma step_Tick_ready (s : AppState) (id : TimerId) (r : Render) (frame : Frame)
    (base64ImageData : string) :
  lookupInterval id s = Some r ->
  busy s = false -> mounted s = true ->
  context2d frame = true -> encoded frame = Return base64ImageData ->
  effects (step (Tick id frame) s) = CallAnalyzeScene base64ImageData :: effects s
  /\ analyses (step (Tick id frame) s) = (analyses s ++ [(base64ImageData, r)])%list
  /\ isProcessingRef (step (Tick id frame) s) = true
  /\ statusMessage (step (Tick id frame) s) = "Analyzing scene...".
Proof.
  unfold busy. intros Hid Hbusy Hmounted Hctx Henc. simpl. rewrite Hid.
  unfold processFrame. rewrite Hbusy, Hmounted, Hctx, Henc. simpl.
  repeat split.
Qed.

Lemma utterance_event_schedule (e : Event) (s : AppState) :
  isUtteranceEvent e = true ->
  schedule (step e s) = schedule s
  /\ isProcessingRef (step e s) = isProcessingRef s.
Proof.
  destruct e; simpl; try discriminate; intros _;
    unfold utterance_onstart, utterance_onend, utterance_onerror;
    repeat (break_match; simpl); auto.
Qed.

Lemma utterance_events_schedule (events : list Event) (s : AppState) :
  forallb isUtteranceEvent events = true ->
  schedule (run events s) = schedule s
  /\ isProcessingRef (run events s) = isProcessingRef s.
Proof.
  revert s. induction events as [|e events IH]; intros s H; simpl in *; [now split|].
  apply andb_prop in H as [He Hrest].
  destruct (IH (step e s) Hrest) as [-> ->].
  now apply utterance_event_schedule.
Qed.

(** The continuation of [processFrame] when [analyzeScene] has settled. *)
Lemma step_AnalysisSettled (s : AppState) (n : nat) (base64ImageData : string)
    (r : Render) (remote : Settlement) (description : string) :
  nth_error (analyses s) n = Some (base64ImageData, r) ->
  analyzeScene base64ImageData (fun _ => remote) = Return description ->
  step (AnalysisSettled n remote) s
  = processFrame_finally
      (speak r description (set_analyses (removeNth n (analyses s)) s)).
Proof.
  intros Hnth Hd. simpl. now rewrite Hnth, Hd.
Qed.

(** ** C1: ticks during a cycle *)




(** Stopping clears [isProcessingRef] while the call is still pending, so a
    restarted session calls [analyzeScene] again before the first call has
    settled. *)
Lemma second_call_after_restart :
  let s := run (firstTick ++ [Click; Click; CameraGranted 8; Tick 2 sampleFrame]) initial in
  analyzeCalls s = 2 /\ List.length (analyses s) = 2.
Proof. vm_compute. repeat split. Qed.

(** ** C3: a result that arrives after the stop *)

(** The session is stopped while the call is pending; the result is spoken
    all the same, and the start of that utterance sets the status and
    [isSpeakingRef] of the idle session. *)
Lemma stale_result_spoken_after_stop :
  let stopped := run (firstTick ++ [Click]) initial in
  let settled := step (AnalysisSettled 0 (Fulfilled (Some "Stop. Curb ahead."))) stopped in
  let started := step UtteranceStart settled in
  isAssistantActive stopped = false
  /\ statusMessage stopped = "Tap screen to begin"
  /\ spoken stopped = ["Starting assistant."]
  /\ isAssistantActive settled = false
  /\ spoken settled = ["Starting assistant."; "Stop. Curb ahead."]
  /\ map utteranceText (speechQueue settled) = ["Stop. Curb ahead."]
  /\ statusMessage started = "Speaking..."
  /\ isSpeakingRef started = true
  /\ statusMessage (step UtteranceEnd started) = "Listening...".
Proof. vm_compute. repeat split. Qed.

(** C3, as the code has it.  When a call of [analyzeScene] settles in a
    session that has been stopped, [processFrame] still hands the
    description to [speak]: the utterance is queued, [isProcessingRef] is
    cleared, the session stays idle, and when the utterance starts the
    status becomes ["Speaking..."]. *)
Theorem stale_result_is_spoken :
  forall (s : AppState) (n : nat) (base64ImageData : string) (r : Render)
         (remote : Settlement),
    isAssistantActive s = false ->
    nth_error (analyses s) n = Some (base64ImageData, r) ->
    exists description : string,
      analyzeScene base64ImageData (fun _ => remote) = Return description
      /\ let s' := step (AnalysisSettled n remote) s in
         spoken s' = (spoken s ++ [description])%list
         /\ map utteranceText (speechQueue s') = [description]
         /\ isProcessingRef s' = false
         /\ isAssistantActive s' = false
         /\ statusMessage (step UtteranceStart s') = "Speaking..."
         /\ isSpeakingRef (step UtteranceStart s') = true.
Proof.
  intros s n base64ImageData r remote Hidle Hnth.
  destruct (analyzeScene_returns base64ImageData (fun _ => remote)) as (d & Hd & _).
  exists d. split; [exact Hd|].
  rewrite (step_AnalysisSettled s n base64ImageData r remote d Hnth Hd).
  cbv zeta. repeat split; try reflexivity.
  exact Hidle.
Qed.

Lemma stale_result_is_spoken_witness :
  exists description : string,
    analyzeScene "data:image/jpeg;base64,/9j/4AAQ"
                 (fun _ => Fulfilled (Some "Stop. Curb ahead.")) = Return description
    /\ let s' := step (AnalysisSettled 0 (Fulfilled (Some "Stop. Curb ahead.")))
                      (run (firstTick ++ [Click]) initial) in
       spoken s' = (spoken (run (firstTick ++ [Click]) initial) ++ [description])%list
       /\ map utteranceText (speechQueue s') = [description]
       /\ isProcessingRef s' = false
       /\ isAssistantActive s' = false
       /\ statusMessage (step UtteranceStart s') = "Speaking..."
       /\ isSpeakingRef (step UtteranceStart s') = true.
Proof.
  apply (stale_result_is_spoken (run (firstTick ++ [Click]) initial) 0
           "data:image/jpeg;base64,/9j/4AAQ"
           {| renderActive := true; renderVoices := [] |}
           (Fulfilled (Some "Stop. Curb ahead."))).
  - vm_compute. reflexivity.
  - vm_compute. reflexivity.
Defined.

(** ** C4: a failed analysis *)

(** The analysis fails, the error utterance starts, and the next tick of
    the timer arrives while it is playing: that tick is skipped, no second
    attempt is issued. *)
Lemma tick_during_error_utterance :
  let failed := run (firstTick ++ [AnalysisSettled 0 networkError]) initial in
  let speaking := step UtteranceStart failed in
  let next := step (Tick 1 sampleFrame) speaking in
  isAssistantActive next = true
  /\ map fst (intervals next) = [1]
  /\ map utteranceText (speechQueue speaking) = ["Error analyzing."]
  /\ isSpeakingRef speaking = true
  /\ analyzeCalls failed = 1
  /\ analyzeCalls next = 1.
Proof. vm_compute. repeat split. Qed.

(** C4, as the code has it.  When the remote call of a pending analysis
    fails, the session stays as active as it was, the timer keeps its
    registration and [isProcessingRef] is cleared; the next tick of a live
    timer calls [analyzeScene] again provided the error utterance is not
    playing when it fires (a tick that finds [isSpeakingRef] set is
    skipped). *)
Theorem analysis_failure_keeps_session_active :
  forall (s : AppState) (n : nat) (base64ImageData : string) (r : Render)
         (reason : Thrown) (between : list Event),
    nth_error (analyses s) n = Some (base64ImageData, r) ->
    forallb isUtteranceEvent between = true ->
    let s1 := step (AnalysisSettled n (Rejected reason)) s in
    let s2 := run between s1 in
    isAssistantActive s2 = isAssistantActive s
    /\ intervals s2 = intervals s
    /\ processingIntervalRef s2 = processingIntervalRef s
    /\ isProcessingRef s2 = false
    /\ forall (id : TimerId) (r' : Render) (frame : Frame) (next : string),
         lookupInterval id s = Some r' ->
         mounted s = true ->
         context2d frame = true ->
         encoded frame = Return next ->
         isSpeakingRef s2 = false ->
         analyzeCalls (step (Tick id frame) s2) = S (analyzeCalls s2).
Proof.
  intros s n base64ImageData r reason between Hnth Hbetween s1 s2.
  destruct (analyzeScene_returns base64ImageData (fun _ => Rejected reason))
    as (d & Hd & _).
  assert (H1 : schedule s1 = schedule s /\ isProcessingRef s1 = false).
  { unfold s1. rewrite (step_AnalysisSettled s n _ r _ d Hnth Hd). now split. }
  destruct H1 as [Hsched1 Hproc1].
  destruct (utterance_events_schedule between s1 Hbetween) as [Hsched2 Hproc2].
  fold s2 in Hsched2, Hproc2.
  rewrite Hsched1 in Hsched2. rewrite Hproc1 in Hproc2.
  unfold schedule in Hsched2. injection Hsched2 as Hactive Hintervals Href Hmounted.
  repeat split; try assumption.
  intros id r' frame next Hid Hm Hctx Henc Hspeak.
  assert (Hid2 : lookupInterval id s2 = Some r')
    by (unfold lookupInterval in *; now rewrite Hintervals).
  assert (Hbusy : busy s2 = false) by (unfold busy; now rewrite Hproc2, Hspeak).
  assert (Hm2 : mounted s2 = true) by congruence.
  destruct (step_Tick_ready s2 id r' frame next Hid2 Hbusy Hm2 Hctx Henc) as (He & _).
  unfold analyzeCalls. now rewrite He.
Qed.

Lemma analysis_failure_keeps_session_active_witness :
  let s := run firstTick initial in
  let s2 := run [UtteranceStart; UtteranceEnd] (step (AnalysisSettled 0 networkError) s) in
  isAssistantActive s2 = true
  /\ analyzeCalls (step (Tick 1 sampleFrame) s2) = S (analyzeCalls s2).
Proof.
  destruct (analysis_failure_keeps_session_active
              (run firstTick initial) 0 "data:image/jpeg;base64,/9j/4AAQ"
              {| renderActive := true; renderVoices := [] |}
              (ErrorObject "Failed to fetch") [UtteranceStart; UtteranceEnd])
    as (Hactive & _ & _ & _ & Hnext).
  - vm_compute. reflexivity.
  - reflexivity.
  - split.
    + exact Hactive.
    + apply (Hnext 1 {| renderActive := true; renderVoices := [] |} sampleFrame
                   "data:image/jpeg;base64,/9j/4AAQ");
        vm_compute; reflexivity.
Defined.

(** ** C6: the camera is refused *)

(** The [catch] clause of [startCamera] on its own, and the effect run
    after it: the error message is set, [speak] is called once with the
    fixed utterance, [isAssistantActive] is cleared; after the effect the
    session is idle, the error still shown. *)
Lemma startCamera_catch_then_commit :
  forall (r : Render) (s : AppState),
    let s' := startCamera_catch r s in
    error s' = Some "Could not access the camera. Please check permissions."
    /\ spoken s' = (spoken s ++ ["Error: Could not access the camera."])%list
    /\ map utteranceText (speechQueue s') = ["Error: Could not access the camera."]
    /\ isAssistantActive s' = false
    /\ isAssistantActive (commit s') = false
    /\ error (commit s') = Some "Could not access the camera. Please check permissions."
    /\ mediaStreamRef (commit s') = None
    /\ processingIntervalRef (commit s') = None
    /\ statusMessage (commit s') = "Tap screen to begin".
Proof.
  intros r s.
  destruct s as [a st er vo [|] [ms|] [pi|] ip isp so cs sq iv nt cr an ef];
    repeat split.
Qed.

(** C6 at the failure event.  When [getUserMedia] is rejected, the error
    message is set, [speak] is called once with the fixed phrase and the
    assistant becomes inactive.  But for an active assistant the effect
    that follows [setIsAssistantActive(false)] calls
    [speechSynthesis.cancel()] in its cleanup and again in its stop
    branch: the phrase is removed from the queue before it can start, so
    no start event can reach it and nothing is spoken.  Only when the
    assistant had already been stopped (no effect runs) does the phrase
    stay queued. *)
Theorem camera_failure_utterance_is_cancelled :
  forall (s : AppState) (r : Render) (rest : list Render),
    cameraRequests s = r :: rest ->
    let s' := step CameraDenied s in
    error s' = Some "Could not access the camera. Please check permissions."
    /\ spoken s' = (spoken s ++ ["Error: Could not access the camera."])%list
    /\ isAssistantActive s' = false
    /\ cameraRequests s' = rest
    /\ (isAssistantActive s = true ->
        speechQueue s' = []
        /\ step UtteranceStart s' = s'
        /\ step UtteranceEnd s' = s'
        /\ isSpeakingRef s' = false
        /\ statusMessage s' = "Tap screen to begin"
        /\ mediaStreamRef s' = None
        /\ processingIntervalRef s' = None)
    /\ (isAssistantActive s = false ->
        map utteranceText (speechQueue s') = ["Error: Could not access the camera."]
        /\ statusMessage s' = statusMessage s
        /\ statusMessage (step UtteranceStart s') = "Speaking...").
Proof.
  intros s r rest.
  destruct s as [[|] st er vo [|] [ms|] [pi|] ip isp so cs sq iv nt cr an ef];
    cbn [cameraRequests]; intros ->; cbv;
    repeat split; congruence.
Qed.

Lemma camera_failure_utterance_is_cancelled_witness :
  spoken (step CameraDenied (run [Mount; Click] initial))
  = ["Starting assistant."; "Error: Could not access the camera."]
  /\ speechQueue (step CameraDenied (run [Mount; Click] initial)) = []
  /\ step UtteranceStart (step CameraDenied (run [Mount; Click] initial))
     = step CameraDenied (run [Mount; Click] initial).
Proof.
  destruct (camera_failure_utterance_is_cancelled
              (run [Mount; Click] initial)
              {| renderActive := true; renderVoices := [] |} [] eq_refl)
    as (_ & Hspoken & _ & _ & Hactive & _).
  destruct (Hactive eq_refl) as (Hqueue & Hstart & _).
  split; [exact Hspoken | split; [exact Hqueue | exact Hstart]].
Defined.

(** The scenario of the specification: start, camera denied. *)
Example scenario_camera_denied :
  let s := run [Mount; Click; CameraDenied] initial in
  isAssistantActive s = false
  /\ error s = Some "Could not access the camera. Please check permissions."
  /\ spoken s = ["Starting assistant."; "Error: Could not access the camera."]
  /\ intervals s = [].
Proof. vm_compute. repeat split. Qed.

(** The effect that follows the failure empties the synthesis queue: the
    error utterance handed to the synthesizer is cancelled with the rest. *)
Remark camera_error_utterance_cancelled (r : Render) (s : AppState) :
  speechQueue (commit (startCamera_catch r s)) = [].
Proof.
  destruct s as [a st er vo [|] [ms|] [pi|] ip isp so cs sq iv nt cr an ef];
    reflexivity.
Qed.

(** ** C7: where a failed analysis shows *)

(** C7 at a failing remote call.  [analyzeScene] turns the rejection into
    the string ["Error analyzing."], so [processFrame] speaks it as if it
    were a description: [setError] is not called and the error state stays
    [null]; the status is the one the tick had set. *)
Theorem analysis_failure_sets_no_error :
  let s := run (firstTick ++ [AnalysisSettled 0 networkError]) initial in
  error s = None
  /\ spoken s = ["Starting assistant."; "Error analyzing."]
  /\ statusMessage s = "Analyzing scene..."
  /\ isAssistantActive s = true.
Proof. vm_compute. repeat split. Qed.

(** The same for every pending analysis and every rejection. *)
Lemma analysis_failure_error_unchanged (s : AppState) (n : nat)
    (base64ImageData : string) (r : Render) (reason : Thrown) :
  nth_error (analyses s) n = Some (base64ImageData, r) ->
  error (step (AnalysisSettled n (Rejected reason)) s) = error s
  /\ spoken (step (AnalysisSettled n (Rejected reason)) s)
     = (spoken s ++ ["Error analyzing."])%list.
Proof.
  intros Hnth.
  pose proof (analyzeScene_cases base64ImageData (fun _ => Rejected reason)) as H.
  assert (Hd : analyzeScene base64ImageData (fun _ => Rejected reason)
               = Return "Error analyzing.")
    by (destruct (requestOf base64ImageData); exact H).
  rewrite (step_AnalysisSettled s n _ r _ _ Hnth Hd). now split.
Qed.

(** The other two errors of the taxonomy: a speech error sets the error
    state (nothing is spoken), a thrown capture sets it and speaks. *)
Lemma other_errors_surface (r : Render) (err : Thrown) (s : AppState) :
  error (utterance_onerror s) = Some "A speech error occurred."
  /\ (exists message, error (processFrame_catch r err s) = Some message)
  /\ spoken (processFrame_catch r err s)
     = (spoken s ++ ["Error: Failed to process the scene."])%list.
Proof.
  repeat split.
  eexists. reflexivity.
Qed.

(** ** C8: the stop path *)

(** C8. The stop path is idempotent: run on a session it has already
    stopped (or on one that was never started) it changes no part of the
    state: active flag, status, error, stream, video source, timer
    reference and registrations, the two flags and the synthesis queue are
    the same; only the call log grows, by the [cancel()] on the empty
    queue. *)
Theorem stopAssistant_idempotent :
  forall s : AppState,
    sessionState (stopAssistant (stopAssistant s)) = sessionState (stopAssistant s)
    /\ effects (stopAssistant (stopAssistant s)) = CallCancel :: effects (stopAssistant s)
    /\ sessionState (stopAssistant initial) = sessionState initial.
Proof.
  intros s.
  destruct s as [a st er vo [|] [ms|] [pi|] ip isp so cs sq iv nt cr an ef];
    cbv; repeat split.
Qed.

(** The same holds for the whole effect (cleanup, then body) of an idle
    render, which is how the stop path runs again while idle. *)
Lemma commit_idle_idempotent (s : AppState) :
  isAssistantActive s = false ->
  sessionState (commit (commit s)) = sessionState (commit s).
Proof.
  destruct s as [a st er vo [|] [ms|] [pi|] ip isp so cs sq iv nt cr an ef];
    cbv [isAssistantActive]; intros ->; cbv; reflexivity.
Qed.

(** ** C10: the in-progress flag *)

(** [isProcessingRef] is set only while an invocation is suspended. *)
Lemma step_flag_owned (e : Event) (s : AppState) :
  isProcessingRef s = false \/ analyses s <> [] ->
  isProcessingRef (step e s) = false \/ analyses (step e s) <> [].
Proof.
  destruct s as [[|] st er vo [|] [ms|] [pi|] ip isp so cs sq iv nt cr an ef];
    simpl; intros Hs; destruct e; simpl; auto;
    unfold processFrame_resume, processFrame, utterance_onend; simpl;
    repeat (break_match; simpl); auto;
    try (right; intros Habs; now apply app_eq_nil in Habs as [_ Habs]).
Qed.

(** C10. An invocation of [processFrame] is skipped by the guard (the state
    is untouched), or is suspended at [analyzeScene], or ends with
    [isProcessingRef] cleared; its continuation ends with the flag cleared
    whether [analyzeScene] returned or threw; and in every state the
    component can reach the flag is set only while some invocation is
    still suspended, so no later tick meets a flag left behind by a cycle
    that has ended. *)
Theorem processFrame_clears_isProcessing :
  (forall (r : Render) (frame : Frame) (s : AppState),
      processFrame r frame s = s
      \/ (exists base64ImageData,
             encoded frame = Return base64ImageData
             /\ analyses (processFrame r frame s)
                = (analyses s ++ [(base64ImageData, r)])%list)
      \/ isProcessingRef (processFrame r frame s) = false)
  /\ (forall (r : Render) (description : Completion string) (s : AppState),
         isProcessingRef (processFrame_resume r description s) = false)
  /\ (forall events : list Event,
         isProcessingRef (run events initial) = false
         \/ analyses (run events initial) <> []).
Proof.
  split; [|split].
  - intros r frame s. unfold processFrame.
    destruct (isProcessingRef s || isSpeakingRef s || negb (mounted s)); [now left|].
    right. destruct (context2d frame); [|now right].
    destruct (encoded frame) as [base64ImageData|err]; [|now right].
    left. exists base64ImageData. now split.
  - intros r [text|err] s; reflexivity.
  - intros events.
    assert (Hinv : forall (l : list Event) (s : AppState),
               (isProcessingRef s = false \/ analyses s <> []) ->
               isProcessingRef (run l s) = false \/ analyses (run l s) <> []).
    { induction l as [|e l IH]; intros s Hs; simpl; [exact Hs|].
      apply IH. clear IH. now apply step_flag_owned. }
    apply Hinv. now left.
Qed.

(** * Further properties *)

(** ** The data URL expression *)

Lemma allDots_app (a b : string) : allDots (a ++ b) = allDots a && allDots b.
Proof. induction a as [|c a IH]; simpl; [reflexivity|]. now rewrite IH, andb_assoc. Qed.

Lemma prefix_app (p x : string) : prefix p (p ++ x) = true.
Proof.
  induction p as [|c p IH]; simpl; [now destruct x|].
  destruct (ascii_dec c c); [exact IH|congruence].
Qed.

Lemma dropPrefix_app (p x : string) : dropPrefix (String.length p) (p ++ x) = x.
Proof.
  induction p as [|c p IH]; simpl String.length; simpl append.
  - apply dropPrefix_0.
  - now rewrite dropPrefix_S.
Qed.

Lemma nonEmpty_app (a b : string) : nonEmpty (a ++ b) = nonEmpty a || nonEmpty b.
Proof. now destruct a. Qed.

Lemma append_assoc (a b c : string) : (a ++ b) ++ c = a ++ b ++ c.
Proof. induction a as [|x a IH]; simpl; [reflexivity|]. now rewrite IH. Qed.

(** When the scan finds nothing, no [";base64,"] in the rest has text on
    both sides. *)
Lemma greedySplit_None (rest before a b : string) :
  greedySplit before rest = None ->
  rest = a ++ base64Marker ++ b ->
  nonEmpty (before ++ a) = true ->
  b = "".
Proof.
  revert before a. induction rest as [|c rest IH]; intros before a H Hrest Hne.
  - destruct a; discriminate.
  - rewrite greedySplit_cons in H.
    destruct (greedySplit (before ++ String c EmptyString) rest) eqn:Hrec; [discriminate|].
    destruct a as [|x a].
    + simpl in Hrest. rewrite Hrest in H.
      change (String ";" (String "b" (String "a" (String "s" (String "e"
               (String "6" (String "4" (String "," b))))))))
        with (base64Marker ++ b) in H.
      rewrite prefix_app in H.
      pose proof (dropPrefix_app base64Marker b) as Hdrop.
      change (String.length base64Marker) with 8 in Hdrop. rewrite Hdrop in H.
      rewrite nonEmpty_app in Hne. simpl in Hne. rewrite orb_false_r in Hne.
      rewrite Hne in H. simpl in H.
      destruct b; [reflexivity|discriminate].
    + simpl in Hrest. injection Hrest as -> ->.
      apply (IH (before ++ String x EmptyString) a Hrec eq_refl).
      now destruct before.
Qed.

Lemma greedySplit_last (rest before m1 m2 a b : string) :
  greedySplit before rest = Some (m1, m2) ->
  m2 = a ++ base64Marker ++ b ->
  b = "".
Proof.
  revert before. induction rest as [|c rest IH]; intros before H Hm2; [discriminate|].
  rewrite greedySplit_cons in H.
  destruct (greedySplit (before ++ String c EmptyString) rest) as [groups|] eqn:Hrec.
  - injection H as ->. now apply (IH _ Hrec).
  - destruct (prefix base64Marker (String c rest)) eqn:Hp; [|discriminate].
    destruct (nonEmpty before) eqn:Hb; [|discriminate].
    destruct (nonEmpty (dropPrefix 8 (String c rest))) eqn:Hd; [|discriminate].
    injection H as <- <-.
    pose proof (prefix_split base64Marker _ Hp) as Hsplit. simpl String.length in Hsplit.
    rewrite Hm2 in Hsplit. simpl in Hsplit. injection Hsplit as _ Hrest.
    apply (greedySplit_None rest (before ++ String c EmptyString)
             ("base64," ++ a) b Hrec).
    + rewrite Hrest. reflexivity.
    + now destruct before.
Qed.

Lemma append_nil_r (a : string) : a ++ "" = a.
Proof. induction a as [|x a IH]; simpl; [reflexivity|]. now rewrite IH. Qed.

Lemma noSemicolon_None (rest before : string) :
  noSemicolon rest = true -> greedySplit before rest = None.
Proof.
  revert before. induction rest as [|c rest IH]; intros before H; [reflexivity|].
  simpl in H. apply andb_prop in H as [Hc Hrest].
  rewrite greedySplit_cons, (IH _ Hrest).
  assert (Hp : prefix base64Marker (String c rest) = false).
  { unfold base64Marker.
    change (prefix ";base64," (String c rest))
      with (if ascii_dec ";" c then prefix "base64," rest else false).
    destruct (ascii_dec ";" c) as [<-|]; [discriminate|reflexivity]. }
  now rewrite Hp.
Qed.

Lemma greedySplit_exact (m before d : string) :
  noSemicolon d = true -> nonEmpty d = true -> nonEmpty (before ++ m) = true ->
  greedySplit before (m ++ base64Marker ++ d) = Some (before ++ m, d).
Proof.
  intros Hsemi Hd. revert before.
  induction m as [|c m IH]; intros before Hne.
  - rewrite append_nil_r in *.
    change ("" ++ base64Marker ++ d) with (String ";" ("base64," ++ d)).
    rewrite greedySplit_cons.
    rewrite (noSemicolon_None ("base64," ++ d)) by exact Hsemi.
    change (String ";" ("base64," ++ d)) with (base64Marker ++ d).
    rewrite prefix_app.
    pose proof (dropPrefix_app base64Marker d) as Hdrop.
    change (String.length base64Marker) with 8 in Hdrop.
    now rewrite Hdrop, Hne, Hd.
  - change (String c m ++ base64Marker ++ d) with (String c (m ++ base64Marker ++ d)).
    rewrite greedySplit_cons, IH.
    + now rewrite append_assoc_char.
    + now destruct before.
Qed.

(** X1. When [fileToGenerativePart] returns, its two fields recompose the
    input: the input is ["data:"], the MIME type, [";base64,"] and the
    data; both fields are non-empty and free of line terminators. *)
Theorem fileToGenerativePart_sound :
  forall (base64Data : string) (part : InlineData),
    fileToGenerativePart base64Data = Return part ->
    base64Data = "data:" ++ mimeType part ++ ";base64," ++ data part
    /\ mimeType part <> "" /\ data part <> ""
    /\ allDots (mimeType part) = true /\ allDots (data part) = true.
Proof.
  intros base64Data part H. unfold fileToGenerativePart in H.
  destruct (matchDataUrl base64Data) as [[m1 m2]|] eqn:Hm; [|discriminate].
  injection H as <-. simpl.
  destruct (matchDataUrl_sound _ _ _ Hm) as (Heq & H1 & H2).
  repeat split; try assumption.
  - unfold matchDataUrl in Hm.
    destruct (prefix "data:" base64Data) eqn:Hp; [|discriminate].
    destruct (allDots (dropPrefix 5 base64Data)) eqn:Hdots; [|discriminate].
    rewrite Heq in Hdots.
    pose proof (dropPrefix_app "data:" (m1 ++ ";base64," ++ m2)) as Hdrop.
    change (String.length "data:") with 5 in Hdrop. rewrite Hdrop in Hdots.
    rewrite allDots_app in Hdots. now apply andb_prop in Hdots as [? _].
  - unfold matchDataUrl in Hm.
    destruct (prefix "data:" base64Data) eqn:Hp; [|discriminate].
    destruct (allDots (dropPrefix 5 base64Data)) eqn:Hdots; [|discriminate].
    rewrite Heq in Hdots.
    pose proof (dropPrefix_app "data:" (m1 ++ ";base64," ++ m2)) as Hdrop.
    change (String.length "data:") with 5 in Hdrop. rewrite Hdrop in Hdots.
    rewrite !allDots_app in Hdots.
    apply andb_prop in Hdots as [_ Hdots]. now apply andb_prop in Hdots as [_ ?].
Qed.

(** X2. The first group is greedy: the data field never contains a
    further [";base64,"] followed by text (such a marker would have been
    taken as the separator). *)
Theorem fileToGenerativePart_greedy :
  forall (base64Data : string) (part : InlineData) (a b : string),
    fileToGenerativePart base64Data = Return part ->
    data part = a ++ ";base64," ++ b ->
    b = "".
Proof.
  intros base64Data part a b H Hdata. unfold fileToGenerativePart in H.
  destruct (matchDataUrl base64Data) as [[m1 m2]|] eqn:Hm; [|discriminate].
  injection H as <-. simpl in Hdata.
  unfold matchDataUrl in Hm.
  destruct (prefix "data:" base64Data && allDots (dropPrefix 5 base64Data)); [|discriminate].
  exact (greedySplit_last _ _ _ _ a b Hm Hdata).
Qed.

Lemma matchDataUrl_wellFormed (m d : string) :
  allDots m = true -> allDots d = true ->
  matchDataUrl ("data:" ++ m ++ ";base64," ++ d)
  = greedySplit "" (m ++ base64Marker ++ d).
Proof.
  intros Hm Hd. unfold matchDataUrl.
  rewrite prefix_app.
  pose proof (dropPrefix_app "data:" (m ++ ";base64," ++ d)) as Hdrop.
  change (String.length "data:") with 5 in Hdrop. rewrite Hdrop.
  rewrite !allDots_app, Hm, Hd. reflexivity.
Qed.

(** X3. Every string of the form ["data:" m ";base64," d], with [m] and
    [d] non-empty and free of line terminators, is accepted:
    [fileToGenerativePart] does not throw on it. *)
Theorem fileToGenerativePart_complete :
  forall m d : string,
    nonEmpty m = true -> nonEmpty d = true ->
    allDots m = true -> allDots d = true ->
    exists part : InlineData,
      fileToGenerativePart ("data:" ++ m ++ ";base64," ++ d) = Return part.
Proof.
  intros m d Hm Hd Hdm Hdd. unfold fileToGenerativePart.
  rewrite (matchDataUrl_wellFormed m d Hdm Hdd).
  destruct (greedySplit "" (m ++ base64Marker ++ d)) as [[m1 m2]|] eqn:Hs.
  - eexists. reflexivity.
  - exfalso.
    assert (Hempty : d = "") by (apply (greedySplit_None _ "" m d Hs eq_refl); exact Hm).
    subst d. discriminate.
Qed.

(** X4. Round trip: when moreover the data contains no [";"] (as base64
    text does not), the fields returned are exactly [m] and [d]. *)
Theorem fileToGenerativePart_roundtrip :
  forall m d : string,
    nonEmpty m = true -> nonEmpty d = true ->
    allDots m = true -> allDots d = true ->
    noSemicolon d = true ->
    fileToGenerativePart ("data:" ++ m ++ ";base64," ++ d)
    = Return {| mimeType := m; data := d |}.
Proof.
  intros m d Hm Hd Hdm Hdd Hsemi. unfold fileToGenerativePart.
  rewrite (matchDataUrl_wellFormed m d Hdm Hdd).
  rewrite greedySplit_exact; try assumption.
  reflexivity.
Qed.

(** ** The Frame Sampler, continued *)

Section FrameSamplerMore.

Import Binary64.
Local Open Scope Q_scope.

Lemma scaled_edge_le_short (long short : Z) :
  (480 < long < 2 ^ 32)%Z -> (0 <= short <= long)%Z ->
  (Math_round (mul (div (ofInt 480) (ofInt long)) (ofInt short)) <= short)%Z.
Proof.
  intros [Hlong Hmax] Hshort.
  destruct (scaled_product_error long short Hlong Hshort) as (X & HX & [HX0 HX1] & [Hp1 Hp2]).
  pose proof (Math_round_error (mul (div (ofInt 480) (ofInt long)) (ofInt short))) as [He1 He2].
  set (e := Math_round _) in *.
  set (p := mul (div (ofInt 480) (ofInt long)) (ofInt short)) in *.
  assert (HL : 480 < inject_Z long) by (change 480 with (inject_Z 480); now rewrite <- Zlt_Qlt).
  assert (HS0 : 0 <= inject_Z short) by (change 0 with (inject_Z 0); now rewrite <- Zle_Qle).
  assert (HXS : X <= inject_Z short) by nra.
  assert (H : (e < short + 1)%Z).
  { rewrite Zlt_Qlt, inject_Z_plus. change (inject_Z 1) with 1. lra. }
  lia.
Qed.

End FrameSamplerMore.

Local Open Scope Z_scope.

Lemma scaled_edge_exact (long short : Z) :
  480 < long < 2 ^ 32 -> 0 <= short <= long ->
  (long | 480 * short) ->
  Binary64.Math_round
    (Binary64.mul (Binary64.div (Binary64.ofInt 480) (Binary64.ofInt long))
                  (Binary64.ofInt short))
  = 480 * short / long.
Proof.
  intros Hlong Hshort [k Hk].
  destruct (scaled_edge long short Hlong Hshort) as [_ Hr].
  set (e := Binary64.Math_round _) in *.
  rewrite Hk, Z.div_mul by lia.
  assert (Hk2 : 960 * short = 2 * k * long) by lia.
  rewrite Hk2 in Hr.
  assert (Z.abs (2 * long * (e - k)) <= long) by (replace (2 * long * (e - k)) with (2 * long * e - 2 * k * long) by ring; exact Hr).
  nia.
Qed.

Lemma scaled_edge_zero (long short : Z) :
  480 < long < 2 ^ 32 -> 0 <= short <= long ->
  let e := Binary64.Math_round
    (Binary64.mul (Binary64.div (Binary64.ofInt 480) (Binary64.ofInt long))
                  (Binary64.ofInt short)) in
  (960 * short < long -> e = 0) /\ (e = 0 -> 960 * short <= long).
Proof.
  intros Hlong Hshort e.
  destruct (scaled_edge long short Hlong Hshort) as [He Hr].
  fold e in He, Hr. split; intros H; nia.
Qed.

(** X5. The target size never exceeds the frame in either dimension: the
    sampler only scales down. *)
Theorem targetSize_never_upscales :
  forall w h : Z,
    0 <= w < 2 ^ 32 -> 0 <= h < 2 ^ 32 ->
    fst (FrameSampler.targetSize w h) <= w /\ snd (FrameSampler.targetSize w h) <= h.
Proof.
  intros w h Hw Hh.
  unfold FrameSampler.targetSize, FrameSampler.MAX_DIMENSION.
  destruct (Z.gtb_spec w h); [destruct (Z.gtb_spec w 480) | destruct (Z.gtb_spec h 480)];
    simpl fst; simpl snd; try lia.
  - split; [lia|]. apply scaled_edge_le_short; lia.
  - split; [|lia]. apply scaled_edge_le_short; lia.
Qed.

(** X6. When the long edge exceeds 480 and divides 480 times the short
    edge, the scaled short edge is the exact quotient: the two roundings
    of the double computation do not disturb an integral result. *)
Theorem targetSize_exact_when_divisible :
  forall w h : Z,
    0 <= w < 2 ^ 32 -> 0 <= h < 2 ^ 32 ->
    480 < Z.max w h ->
    (Z.max w h | 480 * Z.min w h) ->
    FrameSampler.targetSize w h
    = if w >? h then (480, 480 * h / w) else (480 * w / h, 480).
Proof.
  intros w h Hw Hh Hbig Hdiv.
  unfold FrameSampler.targetSize, FrameSampler.MAX_DIMENSION.
  destruct (Z.gtb_spec w h).
  - rewrite Z.max_l, Z.min_r in * by lia.
    destruct (Z.gtb_spec w 480); [|lia].
    f_equal. apply scaled_edge_exact; [lia | lia | exact Hdiv].
  - rewrite Z.max_r, Z.min_l in * by lia.
    destruct (Z.gtb_spec h 480); [|lia].
    f_equal. apply scaled_edge_exact; [lia | lia | exact Hdiv].
Qed.

(** X7. A frame wider than 480 and more than 960 times as wide as high
    gets the target height 0 (an empty canvas), and the target height is 0
    only if the frame is at least 960 times as wide as high. *)
Theorem targetSize_zero_edge :
  forall w h : Z,
    480 < w < 2 ^ 32 -> 0 <= h < w ->
    (960 * h < w -> FrameSampler.targetSize w h = (480, 0))
    /\ (snd (FrameSampler.targetSize w h) = 0 -> 960 * h <= w).
Proof.
  intros w h Hw Hh.
  unfold FrameSampler.targetSize, FrameSampler.MAX_DIMENSION.
  destruct (Z.gtb_spec w h); [|lia].
  destruct (Z.gtb_spec w 480); [|lia].
  destruct (scaled_edge_zero w h) as [H1 H2]; [lia | lia |].
  simpl snd. split.
  - intros Hthin. now rewrite (H1 Hthin).
  - exact H2.
Qed.

(** X8. Portrait and landscape are treated alike: exchanging width and
    height of the frame exchanges width and height of the target. *)
Theorem targetSize_transpose :
  forall w h : Z,
    0 <= w < 2 ^ 32 -> 0 <= h < 2 ^ 32 ->
    FrameSampler.targetSize h w = transpose (FrameSampler.targetSize w h).
Proof.
  intros w h Hw Hh.
  unfold FrameSampler.targetSize, FrameSampler.MAX_DIMENSION, transpose.
  destruct (Z.gtb_spec w h); destruct (Z.gtb_spec h w); try lia.
  - destruct (Z.gtb_spec w 480); reflexivity.
  - destruct (Z.gtb_spec h 480); reflexivity.
  - assert (w = h) by lia. subst w.
    destruct (Z.gtb_spec h 480); [|reflexivity].
    simpl fst; simpl snd.
    rewrite scaled_edge_exact; try lia.
    + rewrite Z.div_mul by lia. reflexivity.
    + exists 480. ring.
Qed.

Local Close Scope Z_scope.

(** ** The App component, continued *)

Lemma step_speechQueue (e : Event) (s : AppState) :
  List.length (speechQueue s) <= 1 -> List.length (speechQueue (step e s)) <= 1.
Proof.
  destruct s as [[|] st er vo [|] [ms|] [pi|] ip isp so cs sq iv nt cr an ef];
    simpl; intros Hs; destruct e; simpl; auto;
    unfold processFrame_resume, processFrame, utterance_onend; simpl;
    repeat (break_match; simpl); subst; simpl in *; auto; lia.
Qed.

(** X11. [speak] cancels before it speaks, so whatever happens the
    synthesis queue never holds more than one utterance. *)
Theorem speechQueue_at_most_one :
  forall events : list Event, List.length (speechQueue (run events initial)) <= 1.
Proof.
  intros events.
  assert (H : forall (l : list Event) (s : AppState),
             List.length (speechQueue s) <= 1 ->
             List.length (speechQueue (run l s)) <= 1).
  { induction l as [|e l IH]; intros s Hs; simpl; [exact Hs|].
    apply IH. now apply step_speechQueue. }
  apply H. simpl. lia.
Qed.

Lemma timerOwned_held (s : AppState) : timerOwned s -> timerHeld s.
Proof.
  intros [H | (id & r & Hiv & Href & _)]; [now left|].
  right. now exists id, r.
Qed.

Lemma effectCleanup_intervals (s : AppState) :
  timerHeld s ->
  intervals (effectCleanup s) = []
  /\ isAssistantActive (effectCleanup s) = isAssistantActive s
  /\ voices (effectCleanup s) = voices s.
Proof.
  destruct s as [a st er vo [|] [ms|] [pi|] ip isp so cs sq iv nt cr an ef];
    unfold timerHeld; simpl;
    (intros [-> | (id & r & -> & Href)];
     [ repeat split
     | try discriminate; injection Href as ->; simpl;
       rewrite Nat.eqb_refl; repeat split ]).
Qed.

Lemma effectBody_timerOwned (r : Render) (s : AppState) :
  intervals s = [] ->
  renderActive r = isAssistantActive s ->
  timerOwned (effectBody r s).
Proof.
  destruct r as [[|] rv];
    destruct s as [a st er vo [|] [ms|] [pi|] ip isp so cs sq iv nt cr an ef];
    unfold timerOwned; simpl; intros -> <-; simpl;
    solve [ now left | right; eexists; eexists; repeat split ].
Qed.

Lemma commit_timerOwned (s : AppState) : timerHeld s -> timerOwned (commit s).
Proof.
  intros H. destruct (effectCleanup_intervals s H) as (Hiv & Ha & Hv).
  unfold commit. apply effectBody_timerOwned; [exact Hiv|].
  rewrite Ha. reflexivity.
Qed.

Lemma handleToggleAssistant_timer (s : AppState) :
  intervals (handleToggleAssistant s) = intervals s
  /\ processingIntervalRef (handleToggleAssistant s) = processingIntervalRef s.
Proof.
  destruct s as [[|] st er vo mo ms pi ip isp so cs sq iv nt cr an ef]; now split.
Qed.

Lemma startCamera_catch_timer (r : Render) (s : AppState) :
  intervals (startCamera_catch r s) = intervals s
  /\ processingIntervalRef (startCamera_catch r s) = processingIntervalRef s
  /\ isAssistantActive (startCamera_catch r s) = false.
Proof. now repeat split. Qed.

Lemma timerHeld_eq (s s' : AppState) :
  intervals s' = intervals s ->
  processingIntervalRef s' = processingIntervalRef s ->
  timerHeld s -> timerHeld s'.
Proof. unfold timerHeld. intros -> ->. exact (fun H => H). Qed.

Lemma timerOwned_eq (s s' : AppState) :
  intervals s' = intervals s ->
  processingIntervalRef s' = processingIntervalRef s ->
  isAssistantActive s' = isAssistantActive s ->
  timerOwned s -> timerOwned s'.
Proof. unfold timerOwned. intros -> -> ->. exact (fun H => H). Qed.

(** The events that run no effect leave the timer, its reference and the
    active flag alone. *)
Lemma step_timer_unchanged (e : Event) (s : AppState) :
  match e with
  | Tick _ _ | CameraGranted _ | AnalysisSettled _ _
  | UtteranceStart | UtteranceEnd | UtteranceError => True
  | _ => False
  end ->
  intervals (step e s) = intervals s
  /\ processingIntervalRef (step e s) = processingIntervalRef s
  /\ isAssistantActive (step e s) = isAssistantActive s.
Proof.
  destruct s as [a st er vo [|] [ms|] [pi|] ip isp so cs sq iv nt cr an ef];
    destruct e; simpl; intros He; try contradiction;
    unfold processFrame_resume, processFrame, utterance_onend; simpl;
    repeat (break_match; simpl); repeat split.
Qed.

Lemma step_timerOwned (e : Event) (s : AppState) :
  isMount e = false -> timerOwned s -> timerOwned (step e s).
Proof.
  intros He Hs.
  destruct e; try discriminate;
    try (match goal with
         | |- timerOwned (step ?e s) =>
             destruct (step_timer_unchanged e s I) as (H1 & H2 & H3);
             exact (timerOwned_eq s _ H1 H2 H3 Hs)
         end).
  - apply commit_timerOwned.
    destruct (handleToggleAssistant_timer s) as [H1 H2].
    exact (timerHeld_eq s _ H1 H2 (timerOwned_held s Hs)).
  - apply commit_timerOwned.
    exact (timerHeld_eq s (setVoices vs s) eq_refl eq_refl (timerOwned_held s Hs)).
  - simpl. destruct (cameraRequests s) as [|r rest] eqn:Hcr; [exact Hs|].
    destruct (isAssistantActive s) eqn:Ha.
    + apply commit_timerOwned.
      exact (timerHeld_eq s _ eq_refl eq_refl (timerOwned_held s Hs)).
    + destruct Hs as [Hiv | (i & r' & _ & _ & _ & Hact)]; [|congruence].
      left. exact Hiv.
  - simpl. destruct (effectCleanup_intervals s (timerOwned_held s Hs)) as (Hiv & _).
    left. exact Hiv.
Qed.

Lemma run_timerOwned (events : list Event) (s : AppState) :
  forallb (fun e => negb (isMount e)) events = true ->
  timerOwned s -> timerOwned (run events s).
Proof.
  revert s. induction events as [|e events IH]; intros s H Hs; simpl in *; [exact Hs|].
  apply andb_prop in H as [He Hrest].
  apply IH; [exact Hrest|].
  apply step_timerOwned; [now destruct (isMount e) | exact Hs].
Qed.

(** X14. After the mount, whatever happens, at most one timer is live;
    a live timer is the one [processingIntervalRef] holds, it was
    registered by a render in which the assistant was active, and the
    assistant is active. *)
Theorem at_most_one_timer :
  forall events : list Event,
    forallb (fun e => negb (isMount e)) events = true ->
    timerOwned (afterMount events).
Proof.
  intros events H. apply run_timerOwned; [exact H|]. now left.
Qed.

(** X15. While the assistant is not active no timer is live, and a tick
    with any timer id changes nothing (no frame is captured, no analysis
    is called). *)
Theorem tick_ignored_when_stopped :
  forall (events : list Event) (id : TimerId) (frame : Frame),
    forallb (fun e => negb (isMount e)) events = true ->
    isAssistantActive (afterMount events) = false ->
    intervals (afterMount events) = []
    /\ step (Tick id frame) (afterMount events) = afterMount events.
Proof.
  intros events id frame H Hidle. unfold afterMount in *.
  destruct (run_timerOwned events (step Mount initial) H (or_introl eq_refl))
    as [Hiv | (i & r & _ & _ & _ & Ha)]; [|congruence].
  split; [exact Hiv|].
  generalize dependent (run events (step Mount initial)). intros s _ Hiv.
  simpl. unfold lookupInterval. now rewrite Hiv.
Qed.



Lemma step_speaksText (e : Event) (s : AppState) :
  forallb speaksText (effects s) = true ->
  forallb speaksText (effects (step e s)) = true.
Proof.
  destruct e.
  8-10: destruct s as [[|] st er vo [|] [ms|] [pi|] ip isp so cs sq iv nt cr an ef];
    simpl; intros Hs; unfold utterance_onend; simpl;
    repeat (break_match; simpl); assumption.
  1-6, 8: destruct s as [[|] st er vo [|] [ms|] [pi|] ip isp so cs sq iv nt cr an ef];
    simpl; intros Hs; unfold processFrame; simpl;
    repeat (break_match; simpl); assumption.
  intros Hs. simpl.
  destruct (nth_error (analyses s) n) as [[base64ImageData r]|]; [|exact Hs].
  destruct (analyzeScene_returns base64ImageData (fun _ => remote)) as (d & Hd & Hne & _).
  rewrite Hd. simpl. rewrite Hs.
  destruct d; [congruence|reflexivity].
Qed.

Lemma spoken_In (text : string) (s : AppState) :
  In text (spoken s) ->
  exists u, In (CallSpeak u) (effects s) /\ utteranceText u = text.
Proof.
  unfold spoken. rewrite <- in_rev, in_flat_map.
  intros (e & He & Ht). destruct e; simpl in Ht; try contradiction.
  destruct Ht as [Ht|[]]. now exists u.
Qed.

(** X12. No text handed to [speechSynthesis.speak] is ever empty,
    whatever the events and the answers of the remote model. *)
Theorem never_speaks_empty :
  forall (events : list Event) (text : string),
    In text (spoken (run events initial)) -> text <> "".
Proof.
  intros events text Hin.
  assert (H : forall (l : list Event) (s : AppState),
             forallb speaksText (effects s) = true ->
             forallb speaksText (effects (run l s)) = true).
  { induction l as [|e l IH]; intros s Hs; simpl; [exact Hs|].
    apply IH. now apply step_speaksText. }
  specialize (H events initial eq_refl).
  destruct (spoken_In _ _ Hin) as (u & Hu & <-).
  rewrite forallb_forall in H. specialize (H _ Hu). simpl in H.
  destruct (utteranceText u); [discriminate|discriminate].
Qed.

Lemma step_statusMessage (e : Event) (s : AppState) :
  In (statusMessage s) statusMessages ->
  In (statusMessage (step e s)) statusMessages.
Proof.
  destruct s as [[|] st er vo [|] [ms|] [pi|] ip isp so cs sq iv nt cr an ef];
    simpl; intros Hs; destruct e; simpl;
    unfold processFrame_resume, processFrame, utterance_onend; simpl;
    repeat (break_match; simpl);
    first [ assumption | repeat (first [left; reflexivity | right]) ].
Qed.

(** X13. The status message is always one of six texts. *)
Theorem statusMessage_domain :
  forall events : list Event,
    In (statusMessage (run events initial)) statusMessages.
Proof.
  intros events.
  assert (H : forall (l : list Event) (s : AppState),
             In (statusMessage s) statusMessages ->
             In (statusMessage (run l s)) statusMessages).
  { induction l as [|e l IH]; intros s Hs; simpl; [exact Hs|].
    apply IH. now apply step_statusMessage. }
  apply H. now left.
Qed.

(** X22. When drawing or encoding the frame throws, the tick sets the
    error to ["Failed to process frame: "] followed by the message (or
    ["An unknown error occurred."]), speaks the fixed phrase, calls no
    analysis and clears [isProcessingRef]; the assistant stays active. *)
Theorem capture_failure_surfaces :
  forall (s : AppState) (id : TimerId) (r : Render) (frame : Frame) (err : Thrown),
    lookupInterval id s = Some r ->
    isProcessingRef s || isSpeakingRef s = false ->
    mounted s = true ->
    context2d frame = true ->
    encoded frame = Throw err ->
    let s' := step (Tick id frame) s in
    error s' = Some ("Failed to process frame: " ++ thrownMessage err)
    /\ spoken s' = (spoken s ++ ["Error: Failed to process the scene."])%list
    /\ isProcessingRef s' = false
    /\ analyzeCalls s' = analyzeCalls s
    /\ analyses s' = analyses s
    /\ isAssistantActive s' = isAssistantActive s.
Proof.
  intros s id r frame err Hid Hbusy Hm Hctx Henc. simpl. rewrite Hid.
  unfold processFrame. rewrite Hbusy, Hm, Hctx, Henc. simpl.
  destruct err; repeat split.
Qed.

(** X23. When the canvas yields no 2d context, the tick makes no platform
    call, speaks nothing and sets no error; [isProcessingRef] is cleared
    and the status stays ["Analyzing scene..."]. *)
Theorem missing_context_is_silent :
  forall (s : AppState) (id : TimerId) (r : Render) (frame : Frame),
    lookupInterval id s = Some r ->
    isProcessingRef s || isSpeakingRef s = false ->
    mounted s = true ->
    context2d frame = false ->
    let s' := step (Tick id frame) s in
    statusMessage s' = "Analyzing scene..."
    /\ error s' = error s
    /\ effects s' = effects s
    /\ speechQueue s' = speechQueue s
    /\ analyses s' = analyses s
    /\ isProcessingRef s' = false.
Proof.
  intros s id r frame Hid Hbusy Hm Hctx. simpl. rewrite Hid.
  unfold processFrame. rewrite Hbusy, Hm, Hctx. simpl.
  repeat split.
Qed.




(** X19. When the camera is refused to an active assistant, the error
    phrase is handed to [speak], but the effect that follows
    [setIsAssistantActive(false)] calls [cancel()]: the phrase is no
    longer in the synthesis queue, the status is ["Tap screen to begin"]
    and only the error message remains. *)
Theorem camera_error_cancelled_by_effect :
  forall (s : AppState) (r : Render) (rest : list Render),
    cameraRequests s = r :: rest ->
    isAssistantActive s = true ->
    let s' := step CameraDenied s in
    spoken s' = (spoken s ++ ["Error: Could not access the camera."])%list
    /\ speechQueue s' = []
    /\ isAssistantActive s' = false
    /\ error s' = Some "Could not access the camera. Please check permissions."
    /\ statusMessage s' = "Tap screen to begin".
Proof.
  intros s r rest.
  destruct s as [a st er vo [|] [ms|] [pi|] ip isp so cs sq iv nt cr an ef];
    simpl; intros -> ->; cbv zeta; repeat split.
Qed.

(** X20. [startCamera] does not look at [isAssistantActive] when
    [getUserMedia] resolves: if the assistant has been stopped meanwhile,
    the stream is stored and shown all the same, the status becomes
    ["Listening..."], and no track is stopped. *)
Theorem late_camera_grant_after_stop :
  forall (s : AppState) (r : Render) (rest : list Render) (stream : MediaStream),
    cameraRequests s = r :: rest ->
    isAssistantActive s = false ->
    let s' := step (CameraGranted stream) s in
    mediaStreamRef s' = Some stream
    /\ (mounted s = true -> srcObject s' = Some stream)
    /\ statusMessage s' = "Listening..."
    /\ isAssistantActive s' = false
    /\ effects s' = effects s
    /\ intervals s' = intervals s.
Proof.
  intros s r rest stream.
  destruct s as [a st er vo [|] [ms|] [pi|] ip isp so cs sq iv nt cr an ef];
    simpl; intros -> ->; cbv zeta; repeat split; congruence.
Qed.

(** X21. [stopCamera] stops the tracks of the stream it holds exactly
    once, forgets the stream and detaches the video; a second call changes
    nothing at all. *)
Theorem stopCamera_idempotent :
  forall s : AppState,
    stopCamera (stopCamera s) = stopCamera s
    /\ mediaStreamRef (stopCamera s) = None
    /\ (mounted s = true -> srcObject (stopCamera s) = None)
    /\ effects (stopCamera s)
       = match mediaStreamRef s with
         | Some stream => CallTrackStop stream :: effects s
         | None => effects s
         end.
Proof.
  intros s.
  destruct s as [a st er vo [|] [ms|] [pi|] ip isp so cs sq iv nt cr an ef];
    cbv; repeat split; congruence.
Qed.

Lemma nth_error_last {A : Type} (l : list A) (x : A) :
  nth_error (l ++ [x]) (List.length l) = Some x.
Proof. induction l; simpl; auto. Qed.

Lemma removeNth_last {A : Type} (l : list A) (x : A) :
  removeNth (List.length l) (l ++ [x]) = l.
Proof. induction l as [|a l IH]; simpl; [reflexivity|]. now rewrite IH. Qed.

(** X24. A complete cycle: a tick that passes the guard followed by the
    settlement of its analysis issues one [analyzeScene] call and one
    utterance, carrying the description and the voice and closure of the
    timer's render; the list of pending analyses and the error are as
    before, both flags are clear, and the status stays
    ["Analyzing scene..."] until the utterance starts. *)
Theorem cycle_restores_state :
  forall (s : AppState) (id : TimerId) (r : Render) (frame : Frame)
         (base64ImageData : string) (remote : Settlement),
    lookupInterval id s = Some r ->
    isProcessingRef s || isSpeakingRef s = false ->
    mounted s = true ->
    context2d frame = true ->
    encoded frame = Return base64ImageData ->
    let s1 := step (Tick id frame) s in
    let s2 := step (AnalysisSettled (List.length (analyses s)) remote) s1 in
    exists description : string,
      analyzeScene base64ImageData (fun _ => remote) = Return description
      /\ analyzeCalls s2 = S (analyzeCalls s)
      /\ spoken s2 = (spoken s ++ [description])%list
      /\ speechQueue s2
         = [{| utteranceText := description;
               utteranceVoice := selectVoice (renderVoices r);
               activeAtRender := renderActive r |}]
      /\ analyses s2 = analyses s
      /\ isProcessingRef s2 = false
      /\ isSpeakingRef s2 = false
      /\ error s2 = error s
      /\ statusMessage s2 = "Analyzing scene...".
Proof.
  intros s id r frame base64ImageData remote Hid Hbusy Hm Hctx Henc s1 s2.
  destruct (step_Tick_ready s id r frame base64ImageData Hid Hbusy Hm Hctx Henc)
    as (He & Han & Hp & Hst).
  fold s1 in He, Han, Hp, Hst.
  destruct (analyzeScene_returns base64ImageData (fun _ => remote)) as (d & Hd & _).
  exists d. split; [exact Hd|].
  assert (Hnth : nth_error (analyses s1) (List.length (analyses s)) = Some (base64ImageData, r))
    by (rewrite Han; apply nth_error_last).
  unfold s2. rewrite (step_AnalysisSettled s1 _ _ r remote d Hnth Hd).
  rewrite Han, removeNth_last.
  apply orb_false_elim in Hbusy as [_ Hspeak].
  assert (Hspeak1 : isSpeakingRef s1 = isSpeakingRef s).
  { unfold s1. simpl. rewrite Hid. unfold processFrame.
    destruct (isProcessingRef s || isSpeakingRef s || negb (mounted s)); [reflexivity|].
    destruct (context2d frame); [|reflexivity].
    destruct (encoded frame); reflexivity. }
  assert (Herr1 : error s1 = error s).
  { unfold s1. simpl. rewrite Hid. unfold processFrame.
    destruct (isProcessingRef s || isSpeakingRef s || negb (mounted s)); [reflexivity|].
    rewrite Hctx, Henc. reflexivity. }
  repeat split.
  - unfold analyzeCalls. simpl. rewrite He. reflexivity.
  - unfold spoken. simpl. rewrite He. simpl. reflexivity.
  - simpl. congruence.
  - simpl. exact Herr1.
  - simpl. exact Hst.
Qed.

(** X9. The voice chosen by [speak] is one of the available voices; its
    name is in the preference list, or else its language starts with
    ["en-US"] and no available voice has a preferred name; no voice is set
    only when no available voice is preferred or US English. *)
Theorem selectVoice_spec :
  forall vs : list SpeechSynthesisVoice,
    match selectVoice vs with
    | Some v =>
        In v vs
        /\ (isPreferred v = true
            \/ (isUSEnglish v = true /\ forall v', In v' vs -> isPreferred v' = false))
    | None =>
        forall v, In v vs -> isPreferred v = false /\ isUSEnglish v = false
    end.
Proof.
  intros vs. unfold selectVoice.
  fold isPreferred. 
  change (fun v => existsb (String.eqb (name v)) preferredVoiceNames) with isPreferred.
  change (fun v => prefix "en-US" (lang v)) with isUSEnglish.
  destruct (find isPreferred vs) as [v|] eqn:Hp.
  - apply find_some in Hp as [Hin Hv]. split; [exact Hin|now left].
  - pose proof (find_none _ _ Hp) as Hnone.
    destruct (find isUSEnglish vs) as [v|] eqn:Hu.
    + apply find_some in Hu as [Hin Hv]. split; [exact Hin|]. right. now split.
    + intros v Hin. split; [now apply Hnone|].
      exact (find_none _ _ Hu v Hin).
Qed.

(** X10. Among preferred voices the order of the voice list decides, not
    the order of the preference list: a preferred voice at the head is
    chosen, and a voice that is not preferred is passed over whenever a
    preferred one follows, even if it is US English. *)
Theorem selectVoice_list_order :
  forall (v : SpeechSynthesisVoice) (vs : list SpeechSynthesisVoice),
    (isPreferred v = true -> selectVoice (v :: vs) = Some v)
    /\ (isPreferred v = false -> (exists v', In v' vs /\ isPreferred v' = true) ->
        exists v', selectVoice (v :: vs) = Some v' /\ In v' vs /\ isPreferred v' = true).
Proof.
  intros v vs. unfold selectVoice.
  change (fun v => existsb (String.eqb (name v)) preferredVoiceNames) with isPreferred.
  change (fun v => prefix "en-US" (lang v)) with isUSEnglish.
  split.
  - intros Hv. simpl. now rewrite Hv.
  - intros Hv (v' & Hin & Hv'). simpl. rewrite Hv.
    destruct (find isPreferred vs) as [w|] eqn:Hw.
    + apply find_some in Hw as [Hinw Hpw]. now exists w.
    + rewrite (find_none _ _ Hw v' Hin) in Hv'. discriminate.
Qed.

(** ** Instances *)

Lemma fileToGenerativePart_sound_witness :
  "data:image/jpeg;base64,/9j/4AAQ" = "data:" ++ "image/jpeg" ++ ";base64," ++ "/9j/4AAQ".
Proof.
  exact (proj1 (fileToGenerativePart_sound
                  "data:image/jpeg;base64,/9j/4AAQ"
                  {| mimeType := "image/jpeg"; data := "/9j/4AAQ" |} eq_refl)).
Defined.

Lemma fileToGenerativePart_greedy_witness : EmptyString = EmptyString.
Proof.
  apply (fileToGenerativePart_greedy
           "data:a;base64,b;base64,"
           {| mimeType := "a"; data := "b;base64," |} "b" EmptyString).
  - reflexivity.
  - reflexivity.
Defined.

Lemma fileToGenerativePart_complete_witness :
  exists part : InlineData,
    fileToGenerativePart ("data:" ++ "image/png" ++ ";base64," ++ "iVBORw0KGgo=") = Return part.
Proof.
  apply (fileToGenerativePart_complete "image/png" "iVBORw0KGgo="); reflexivity.
Defined.

Lemma fileToGenerativePart_roundtrip_witness :
  fileToGenerativePart ("data:" ++ "image/jpeg" ++ ";base64," ++ "/9j/4AAQ")
  = Return {| mimeType := "image/jpeg"; data := "/9j/4AAQ" |}.
Proof.
  apply (fileToGenerativePart_roundtrip "image/jpeg" "/9j/4AAQ"); reflexivity.
Defined.

Lemma targetSize_never_upscales_witness :
  (fst (FrameSampler.targetSize 1920 1080) <= 1920
   /\ snd (FrameSampler.targetSize 1920 1080) <= 1080)%Z.
Proof. apply (targetSize_never_upscales 1920 1080); lia. Defined.

Lemma targetSize_exact_when_divisible_witness :
  FrameSampler.targetSize 1920 1080
  = if (1920 >? 1080)%Z then (480, 480 * 1080 / 1920)%Z else (480 * 1920 / 1080, 480)%Z.
Proof.
  apply (targetSize_exact_when_divisible 1920 1080).
  - lia.
  - lia.
  - lia.
  - exists 270%Z. reflexivity.
Defined.

Lemma targetSize_zero_edge_witness : FrameSampler.targetSize 4000 4 = (480, 0)%Z.
Proof. apply (proj1 (targetSize_zero_edge 4000 4 ltac:(lia) ltac:(lia))). lia. Defined.

Lemma targetSize_transpose_witness :
  FrameSampler.targetSize 1920 1080 = transpose (FrameSampler.targetSize 1080 1920).
Proof. apply (targetSize_transpose 1080 1920); lia. Defined.

Lemma selectVoice_list_order_witness :
  selectVoice [ {| name := "Daniel"; lang := "en-GB" |};
                {| name := "Google US English"; lang := "en-US" |} ]
  = Some {| name := "Daniel"; lang := "en-GB" |}.
Proof.
  apply (proj1 (selectVoice_list_order
                  {| name := "Daniel"; lang := "en-GB" |}
                  [ {| name := "Google US English"; lang := "en-US" |} ])).
  reflexivity.
Defined.

Lemma never_speaks_empty_witness : "Starting assistant." <> "".
Proof.
  apply (never_speaks_empty [Mount; Click] "Starting assistant.").
  vm_compute. left. reflexivity.
Defined.

Lemma at_most_one_timer_witness : timerOwned (afterMount [Click; CameraGranted 7]).
Proof. apply (at_most_one_timer [Click; CameraGranted 7]). reflexivity. Defined.

Lemma tick_ignored_when_stopped_witness :
  step (Tick 1 sampleFrame) (afterMount [Click; Click]) = afterMount [Click; Click].
Proof.
  apply (proj2 (tick_ignored_when_stopped [Click; Click] 1 sampleFrame eq_refl eq_refl)).
Defined.




Lemma camera_error_cancelled_by_effect_witness :
  spoken (step CameraDenied (afterMount [Click]))
  = ["Starting assistant."; "Error: Could not access the camera."]
  /\ speechQueue (step CameraDenied (afterMount [Click])) = [].
Proof.
  destruct (camera_error_cancelled_by_effect
              (afterMount [Click]) {| renderActive := true; renderVoices := [] |} []
              eq_refl eq_refl)
    as (Hspoken & Hqueue & _).
  split; [exact Hspoken | exact Hqueue].
Defined.

Lemma late_camera_grant_after_stop_witness :
  mediaStreamRef (step (CameraGranted 7) (afterMount [Click; Click])) = Some 7
  /\ isAssistantActive (step (CameraGranted 7) (afterMount [Click; Click])) = false.
Proof.
  destruct (late_camera_grant_after_stop
              (afterMount [Click; Click]) {| renderActive := true; renderVoices := [] |} []
              7 eq_refl eq_refl)
    as (Hms & _ & _ & Hidle & _).
  split; [exact Hms | exact Hidle].
Defined.

Lemma capture_failure_surfaces_witness :
  error (step (Tick 1 taintedFrame) listening)
  = Some "Failed to process frame: The operation is insecure."
  /\ analyzeCalls (step (Tick 1 taintedFrame) listening) = 0.
Proof.
  destruct (capture_failure_surfaces
              listening 1 {| renderActive := true; renderVoices := [] |} taintedFrame
              (ErrorObject "The operation is insecure.")
              eq_refl eq_refl eq_refl eq_refl eq_refl)
    as (Herr & _ & _ & Hcalls & _).
  split; [exact Herr | exact Hcalls].
Defined.

Lemma missing_context_is_silent_witness :
  statusMessage (step (Tick 1 contextlessFrame) listening) = "Analyzing scene..."
  /\ isProcessingRef (step (Tick 1 contextlessFrame) listening) = false.
Proof.
  destruct (missing_context_is_silent
              listening 1 {| renderActive := true; renderVoices := [] |} contextlessFrame
              eq_refl eq_refl eq_refl eq_refl)
    as (Hst & _ & _ & _ & _ & Hflag).
  split; [exact Hst | exact Hflag].
Defined.

Lemma cycle_restores_state_witness :
  exists description : string,
    analyzeScene "data:image/jpeg;base64,/9j/4AAQ"
                 (fun _ => Fulfilled (Some "Clear path.")) = Return description
    /\ analyzeCalls (step (AnalysisSettled 0 (Fulfilled (Some "Clear path.")))
                          (step (Tick 1 sampleFrame) listening)) = 1.
Proof.
  destruct (cycle_restores_state
              listening 1 {| renderActive := true; renderVoices := [] |} sampleFrame
              "data:image/jpeg;base64,/9j/4AAQ" (Fulfilled (Some "Clear path."))
              eq_refl eq_refl eq_refl eq_refl eq_refl)
    as (d & Hd & Hcalls & _).
  exists d. split; [exact Hd | exact Hcalls].
Defined.
